(** * playwright-service-ts/api.ts: the scraping service, embedded and verified

    The service keeps five module-level variables (the browser and context
    handles and three health flags), talks to the browser engine through
    awaited Playwright calls, and answers three HTTP routes.  The embedding
    keeps that shape:

    - module-level variables are a record [Globals], read and assigned
      through the constructors [GetG] and [SetG] of the program monad;
    - every Playwright call is an operation [Op X]; an awaited call is a
      suspension point ([Await]), where other requests may run;
    - a call of an async function of the program that is not awaited is
      [Spawn]; one that is awaited runs in place and hands its result over
      a turn of the event loop later ([Yield]);
    - exceptions are [Throw], with [try_catch] and [finally];
    - the engine is an arbitrary deterministic transducer over an arbitrary
      world type, so a statement quantified over it covers every way the
      browser can answer.

    Strings are byte strings; a JavaScript string is represented by its
    UTF-8 encoding.  Numbers that the program only compares and passes on
    (timeouts, status codes) are integers.  Calls to [console] are left
    out: they have no effect on control flow or on the engine. *)

From Stdlib Require Import String Ascii List ZArith NArith Bool Lia Arith.
From Stdlib.Strings Require Import Byte.
Import ListNotations.

Set Implicit Arguments.

Local Open Scope string_scope.
Local Open Scope list_scope.

(* ------------------------------------------------------------------ *)
(** ** JavaScript string primitives used by the program *)

Module JS.

(** [s.startsWith(p)] *)
Fixpoint startsWith (p s : string) : bool :=
  match p, s with
  | EmptyString, _ => true
  | String a p', String b s' => Ascii.eqb a b && startsWith p' s'
  | String _ _, EmptyString => false
  end.

(** [hay.includes(needle)] *)
Fixpoint includes (needle hay : string) : bool :=
  startsWith needle hay ||
  match hay with
  | EmptyString => false
  | String _ rest => includes needle rest
  end.

Definition is_upper (c : ascii) : bool :=
  let n := nat_of_ascii c in (65 <=? n)%nat && (n <=? 90)%nat.
Definition is_lower (c : ascii) : bool :=
  let n := nat_of_ascii c in (97 <=? n)%nat && (n <=? 122)%nat.

Definition lower_char (c : ascii) : ascii :=
  if is_upper c then ascii_of_nat (nat_of_ascii c + 32) else c.
Definition upper_char (c : ascii) : ascii :=
  if is_lower c then ascii_of_nat (nat_of_ascii c - 32) else c.

Fixpoint map_chars (f : ascii -> ascii) (s : string) : string :=
  match s with
  | EmptyString => EmptyString
  | String c s' => String (f c) (map_chars f s')
  end.

(** [s.toLowerCase()] and [s.toUpperCase()].  The program only compares
    the results with the ASCII words [content-type] and [TRUE]; no
    character outside ASCII maps to a letter of those words, so mapping
    the ASCII letters and leaving every other byte alone decides the
    comparisons as JavaScript does. *)
Definition toLowerCase : string -> string := map_chars lower_char.
Definition toUpperCase : string -> string := map_chars upper_char.

(** Truthiness of a string: the empty string is falsy. *)
Definition truthy (s : string) : bool := negb (s =? "").

(** Truthiness of [string | undefined | null]. *)
Definition truthy_opt (o : option string) : bool :=
  match o with
  | Some s => truthy s
  | None => false
  end.

(** [a || b] where [a] is a string that may be undefined. *)
Definition or_else (a : option string) (b : string) : string :=
  match a with
  | Some s => if truthy s then s else b
  | None => b
  end.

(** [a || null] *)
Definition or_null (a : option string) : option string :=
  match a with
  | Some s => if truthy s then Some s else None
  | None => None
  end.

End JS.

(* ------------------------------------------------------------------ *)
(** ** [Buffer.prototype.toString("utf8")]

    The decoder of the WHATWG Encoding Standard, which Node follows: a
    well-formed sequence is copied, every maximal ill-formed subpart
    becomes U+FFFD, and a byte-order mark is kept.  The output is the text
    in the representation used throughout, its UTF-8 encoding. *)

Module Utf8.

Definition chr (b : N) : string := String (ascii_of_N b) EmptyString.

(** U+FFFD REPLACEMENT CHARACTER, encoded. *)
Definition replacement : string := chr 239 ++ chr 191 ++ chr 189.

Inductive state : Type :=
| Start
| Cont (needed : nat) (lower upper : N) (seen : string).

Definition between (lo hi b : N) : bool := (lo <=? b)%N && (b <=? hi)%N.

(** A byte read with no sequence open: what is emitted and the next state. *)
Definition lead (b : N) : string * state :=
  if (b <=? 127)%N then (chr b, Start)
  else if between 194 223 b then (EmptyString, Cont 1 128 191 (chr b))
  else if between 224 239 b then
    (EmptyString,
     Cont 2 (if (b =? 224)%N then 160 else 128)%N
            (if (b =? 237)%N then 159 else 191)%N (chr b))
  else if between 240 244 b then
    (EmptyString,
     Cont 3 (if (b =? 240)%N then 144 else 128)%N
            (if (b =? 244)%N then 143 else 191)%N (chr b))
  else (replacement, Start).

Fixpoint decode (st : state) (bs : list byte) : string :=
  match bs with
  | [] =>
      match st with
      | Start => EmptyString
      | Cont _ _ _ _ => replacement
      end
  | b :: rest =>
      let n := Byte.to_N b in
      match st with
      | Start => let (out, st') := lead n in out ++ decode st' rest
      | Cont needed lo hi seen =>
          if between lo hi n then
            match needed with
            | S (S k) => decode (Cont (S k) 128 191 (seen ++ chr n)) rest
            | _ => (seen ++ chr n) ++ decode Start rest
            end
          else
            let (out, st') := lead n in
            replacement ++ out ++ decode st' rest
      end
  end.

Definition toString (bs : list byte) : string := decode Start bs.

(** The bytes of a byte string, to write bodies in examples. *)
Definition bytes_of (s : string) : list byte := list_byte_of_string s.

End Utf8.

(* ------------------------------------------------------------------ *)
(** ** Handles, options and results of the Playwright API *)

Inductive Browser : Type := BrowserH (id : nat).
Inductive Context : Type := ContextH (id : nat).
Inductive Page : Type := PageH (id : nat).

(** A navigation response; [response.status()] is a synchronous getter. *)
Record Response : Type := mkResponse { resp_id : nat; resp_status : Z }.

Inductive WaitUntil : Type := Load | NetworkIdle.

Definition WaitUntil_eqb (a b : WaitUntil) : bool :=
  match a, b with
  | Load, Load | NetworkIdle, NetworkIdle => true
  | _, _ => false
  end.

Record LaunchOptions : Type := mkLaunch { headless : bool; args : list string }.

Record Proxy : Type :=
  mkProxy { server : string; username : option string; password : option string }.

Record ContextOptions : Type :=
  mkContextOptions {
      userAgent : string;
      viewport : Z * Z;
      proxy : option Proxy }.

(** A header object, in the order [Object.entries] lists it. *)
Definition Headers : Type := list (string * string).

(** The message of a thrown [Error]. *)
Definition Err : Type := string.

(** Outcome of a call: a value, or the error it threw or rejected with. *)
Definition Res (X : Type) : Type := (X + Err)%type.

(** A sub-resource request as a route handler sees it: [request.url()]. *)
Record SubRequest : Type := mkSubRequest { req_url : string }.

(** What a route handler does with the route it is given. *)
Inductive RouteAction : Type :=
| RouteAbort      (* route.abort() *)
| RouteContinue   (* route.continue() *)
| RouteThrow (e : Err).

Definition RouteHandler : Type := SubRequest -> RouteAction.

(** The calls the program makes into Playwright and its companions. *)
Inductive Op : Type -> Type :=
| Launch (o : LaunchOptions) : Op Browser                    (* chromium.launch *)
| NewUserAgent : Op string                                   (* new UserAgent().toString() *)
| NewContext (b : Browser) (o : ContextOptions) : Op Context (* browser.newContext *)
| Route (c : Context) (glob : string) (h : RouteHandler) : Op unit (* context.route *)
| ContextClose (c : Context) : Op unit                       (* context.close *)
| BrowserClose (b : Browser) : Op unit                       (* browser.close *)
| NewPage (c : Context) : Op Page                            (* context.newPage *)
| SetExtraHTTPHeaders (p : Page) (h : Headers) : Op unit
| Goto (p : Page) (url : string) (w : WaitUntil) (timeout : Z) : Op (option Response)
| WaitForTimeout (p : Page) (ms : Z) : Op unit
| WaitForSelector (p : Page) (selector : string) (timeout : Z) : Op unit
| Content (p : Page) : Op string                             (* page.content *)
| AllHeaders (r : Response) : Op Headers                     (* response.allHeaders *)
| Body (r : Response) : Op (list byte)                       (* response.body *)
| PageClose (p : Page) : Op unit.                            (* page.close *)

Definition is_launch {X : Type} (op : Op X) : bool :=
  match op with
  | Launch _ => true
  | _ => false
  end.

(* ------------------------------------------------------------------ *)
(** ** Module-level state *)

Record Globals : Type :=
  mkGlobals {
      browser : option Browser;
      context : option Context;
      browserInitialized : bool;
      browserInitError : option Err;
      initializationInProgress : bool }.

(** The state when the module has been loaded and nothing has run. *)
Definition globals0 : Globals :=
  mkGlobals None None false None false.

(** An assignment to one module-level variable. *)
Inductive Write : Type :=
| WBrowser (b : Browser)
| WContext (c : Context)
| WInitialized (v : bool)
| WInitError (e : option Err)
| WInProgress (v : bool).

Definition assign (w : Write) (g : Globals) : Globals :=
  match w with
  | WBrowser b =>
      mkGlobals (Some b) (context g) (browserInitialized g)
                (browserInitError g) (initializationInProgress g)
  | WContext c =>
      mkGlobals (browser g) (Some c) (browserInitialized g)
                (browserInitError g) (initializationInProgress g)
  | WInitialized v =>
      mkGlobals (browser g) (context g) v
                (browserInitError g) (initializationInProgress g)
  | WInitError e =>
      mkGlobals (browser g) (context g) (browserInitialized g)
                e (initializationInProgress g)
  | WInProgress v =>
      mkGlobals (browser g) (context g) (browserInitialized g)
                (browserInitError g) v
  end.

(* ------------------------------------------------------------------ *)
(** ** The program monad *)

Inductive Prog (R : Type) : Type :=
| Ret (r : R)
| Throw (e : Err)
| GetG (k : Globals -> Prog R)
| SetG (w : Write) (k : Prog R)
| Sync {X : Type} (op : Op X) (k : Res X -> Prog R)
| Await {X : Type} (op : Op X) (k : Res X -> Prog R)
| Yield (k : Prog R)
| Spawn (child : Prog unit) (k : Prog R).

Arguments Ret {R} r.
Arguments Throw {R} e.
Arguments GetG {R} k.
Arguments SetG {R} w k.
Arguments Sync {R X} op k.
Arguments Await {R X} op k.
Arguments Yield {R} k.
Arguments Spawn {R} child k.

Fixpoint bind {A B : Type} (p : Prog A) (f : A -> Prog B) : Prog B :=
  match p with
  | Ret a => f a
  | Throw e => Throw e
  | GetG k => GetG (fun g => bind (k g) f)
  | SetG w k => SetG w (bind k f)
  | Sync op k => Sync op (fun r => bind (k r) f)
  | Await op k => Await op (fun r => bind (k r) f)
  | Yield k => Yield (bind k f)
  | Spawn c k => Spawn c (bind k f)
  end.

(** [try { p } catch (e) { h e }].  A rejection of a spawned call is not an
    exception of the block that spawned it. *)
Fixpoint try_catch {A : Type} (p : Prog A) (h : Err -> Prog A) : Prog A :=
  match p with
  | Ret a => Ret a
  | Throw e => h e
  | GetG k => GetG (fun g => try_catch (k g) h)
  | SetG w k => SetG w (try_catch k h)
  | Sync op k => Sync op (fun r => try_catch (k r) h)
  | Await op k => Await op (fun r => try_catch (k r) h)
  | Yield k => Yield (try_catch k h)
  | Spawn c k => Spawn c (try_catch k h)
  end.

(** [try { p } finally { f }] *)
Fixpoint finally {A : Type} (p : Prog A) (f : Prog unit) : Prog A :=
  match p with
  | Ret a => bind f (fun _ => Ret a)
  | Throw e => bind f (fun _ => Throw e)
  | GetG k => GetG (fun g => finally (k g) f)
  | SetG w k => SetG w (finally k f)
  | Sync op k => Sync op (fun r => finally (k r) f)
  | Await op k => Await op (fun r => finally (k r) f)
  | Yield k => Yield (finally k f)
  | Spawn c k => Spawn c (finally k f)
  end.

(** [await p] for a call [p] of an async function of the program: the
    caller takes up the value, or the rejection, one turn of the event
    loop after the call has settled. *)
Fixpoint awaited {A : Type} (p : Prog A) : Prog A :=
  match p with
  | Ret a => Yield (Ret a)
  | Throw e => Yield (Throw e)
  | GetG k => GetG (fun g => awaited (k g))
  | SetG w k => SetG w (awaited k)
  | Sync op k => Sync op (fun r => awaited (k r))
  | Await op k => Await op (fun r => awaited (k r))
  | Yield k => Yield (awaited k)
  | Spawn c k => Spawn c (awaited k)
  end.

Definition raise_or_ret {X : Type} (r : Res X) : Prog X :=
  match r with
  | inl x => Ret x
  | inr e => Throw e
  end.

(** [await op]: the value, or the rejection rethrown. *)
Definition await {X : Type} (op : Op X) : Prog X := Await op raise_or_ret.

(** A synchronous library call. *)
Definition call {X : Type} (op : Op X) : Prog X := Sync op raise_or_ret.

Definition getG : Prog Globals := GetG (fun g => Ret g).
Definition setG (w : Write) : Prog unit := SetG w (Ret tt).

Declare Scope prog_scope.
Delimit Scope prog_scope with prog.
Notation "x <- p ;; q" := (bind p (fun x => q))
  (at level 61, p at next level, right associativity) : prog_scope.
Notation "p ;; q" := (bind p (fun _ => q))
  (at level 61, right associativity) : prog_scope.

(* ------------------------------------------------------------------ *)
(** ** URL globs of [context.route]

    Playwright turns a glob into an anchored regular expression.  Two stars
    and a slash at the start of a path segment become "any number of
    segments, each a run of non-slash characters closed by a slash or by
    the end of the input"; any other run of stars becomes "a run of
    non-slash characters"; a brace group becomes an alternation; every
    other character stands for itself.  The matcher below decides
    membership in the language of that expression for the glob syntax the
    program uses (stars, brace groups, literals). *)

Module Glob.

Inductive token : Type :=
| Lit (c : ascii)
| Star                       (* a run of non-slash characters *)
| Deep                       (* any number of closed segments *)
| Alt (alts : list string).  (* one of the alternatives *)

Definition slash : ascii := "/"%char.

(** The alternatives of a brace group, up to the closing brace. *)
Fixpoint group (cur : string) (s : string) : list string * string :=
  match s with
  | EmptyString => ([cur], EmptyString)
  | String c rest =>
      if Ascii.eqb c "}"%char then ([cur], rest)
      else if Ascii.eqb c ","%char then
        let (alts, tl) := group EmptyString rest in (cur :: alts, tl)
      else group (cur ++ String c EmptyString) rest
  end.

(** Tokens of a glob.  [fuel] bounds the scan and is the length of the
    glob; [at_start] says that the previous character was a slash or that
    there was none. *)
Fixpoint tokens (fuel : nat) (at_start : bool) (s : string) : list token :=
  match fuel with
  | O => []
  | S fuel' =>
      match s with
      | EmptyString => []
      | String c rest =>
          if Ascii.eqb c "*"%char then
            match rest with
            | String c1 rest1 =>
                if Ascii.eqb c1 "*"%char then
                  match rest1 with
                  | EmptyString => if at_start then [Deep] else [Star]
                  | String c2 rest2 =>
                      if Ascii.eqb c2 slash && at_start
                      then Deep :: tokens fuel' true rest2
                      else Star :: tokens fuel' false rest1
                  end
                else Star :: tokens fuel' false rest
            | EmptyString => [Star]
            end
          else if Ascii.eqb c "{"%char then
            let (alts, tl) := group EmptyString rest in
            Alt alts :: tokens fuel' false tl
          else Lit c :: tokens fuel' (Ascii.eqb c slash) rest
      end
  end.

Definition parse (glob : string) : list token :=
  tokens (String.length glob) true glob.

(** [s] with the prefix [p] removed. *)
Fixpoint strip (p s : string) : option string :=
  match p, s with
  | EmptyString, _ => Some s
  | String a p', String b s' => if Ascii.eqb a b then strip p' s' else None
  | String _ _, EmptyString => None
  end.

(** A run of non-slash characters followed by [k]. *)
Fixpoint star (k : string -> bool) (s : string) : bool :=
  k s ||
  match s with
  | EmptyString => false
  | String c rest => if Ascii.eqb c slash then false else star k rest
  end.

(** Any number of closed segments followed by [k]; [fresh] holds at the
    start of a segment, where the repetition may stop. *)
Fixpoint deep (k : string -> bool) (fresh : bool) (s : string) : bool :=
  (fresh && k s) ||
  match s with
  | EmptyString => k EmptyString
  | String c rest => deep k (Ascii.eqb c slash) rest
  end.

Fixpoint matches (ts : list token) (s : string) : bool :=
  match ts with
  | [] => (s =? "")%string
  | Lit c :: ts' =>
      match s with
      | String c' s' => Ascii.eqb c c' && matches ts' s'
      | EmptyString => false
      end
  | Star :: ts' => star (matches ts') s
  | Deep :: ts' => deep (matches ts') true s
  | Alt alts :: ts' =>
      existsb (fun a => match strip a s with
                        | Some s' => matches ts' s'
                        | None => false
                        end) alts
  end.

(** [urlMatches(url, glob)] *)
Definition urlMatches (glob url : string) : bool := matches (parse glob) url.

End Glob.

(* ------------------------------------------------------------------ *)
(** ** What the program takes from its surroundings *)

(** The fields of a parsed [URL] object. *)
Record URL : Type := mkURL { protocol : string; hostname : string }.

(** [process.env], the four variables the module reads. *)
Record Env : Type :=
  mkEnv {
      env_BLOCK_MEDIA : option string;
      env_PROXY_SERVER : option string;
      env_PROXY_USERNAME : option string;
      env_PROXY_PASSWORD : option string }.

(** The runtime: the [URL] constructor of the platform ([None] when it
    throws), the helper [getError] imported from [./helpers/get_error]
    ([None] for [null] or [undefined]), and the environment. *)
Record Runtime : Type :=
  mkRuntime {
      URL_parse : string -> option URL;
      getError : option Z -> option string;
      env : Env }.

(** The browser engine: a world and the answer it gives to each call. *)
Record Engine : Type :=
  mkEngine {
      World : Type;
      answer : forall X : Type, Op X -> World -> Res X * World }.

(* ------------------------------------------------------------------ *)
(** ** Running programs *)

Inductive Event : Type :=
| Issued {X : Type} (op : Op X)               (* an awaited call was started *)
| Called {X : Type} (op : Op X) (r : Res X)   (* a call was made and answered *)
| Unhandled (e : Err).                        (* a spawned call rejected *)

(** A suspended call of an async function: the call it waits for and what
    it does with the answer, or what it does at its next turn. *)
Inductive Task : Type :=
| Parked {R X : Type} (op : Op X) (k : Res X -> Prog R)
| Resting {R : Type} (k : Prog R).

Inductive Blocked (R : Type) : Type :=
| Finished (r : Res R)
| Pending {X : Type} (op : Op X) (k : Res X -> Prog R)
| Paused (k : Prog R).

Arguments Finished {R} r.
Arguments Pending {R X} op k.
Arguments Paused {R} k.

Section Semantics.

Variable E : Engine.

Record St : Type :=
  mkSt { glob : Globals; world : World E; parked : list Task }.

Definition park {R : Type} (b : Blocked R) (s : St) : St * list Event :=
  match b with
  | Finished (inl _) => (s, [])
  | Finished (inr e) => (s, [Unhandled e])
  | Pending op k => (mkSt (glob s) (world s) (parked s ++ [Parked op k]), [])
  | Paused k => (mkSt (glob s) (world s) (parked s ++ [Resting k]), [])
  end.

(** The synchronous part of a call: up to its first awaited operation. *)
Fixpoint advance {R : Type} (p : Prog R) (s : St) : Blocked R * St * list Event :=
  match p with
  | Ret r => (Finished (inl r), s, [])
  | Throw e => (Finished (inr e), s, [])
  | GetG k => advance (k (glob s)) s
  | SetG w k => advance k (mkSt (assign w (glob s)) (world s) (parked s))
  | Sync op k =>
      let (r, w') := answer E op (world s) in
      let '(b, s', t) := advance (k r) (mkSt (glob s) w' (parked s)) in
      (b, s', Called op r :: t)
  | Await op k => (Pending op k, s, [Issued op])
  | Yield k => (Paused k, s, [])
  | Spawn c k =>
      let '(bc, s1, t1) := advance c s in
      let (s2, t2) := park bc s1 in
      let '(b, s3, t3) := advance k s2 in
      (b, s3, t1 ++ t2 ++ t3)
  end.

(** A call run to its end with nothing else scheduled in between: every
    awaited operation is answered as soon as it is issued.  Spawned calls
    run their synchronous part and stay parked. *)
Fixpoint run {R : Type} (p : Prog R) (s : St) : Res R * St * list Event :=
  match p with
  | Ret r => (inl r, s, [])
  | Throw e => (inr e, s, [])
  | GetG k => run (k (glob s)) s
  | SetG w k => run k (mkSt (assign w (glob s)) (world s) (parked s))
  | Sync op k =>
      let (r, w') := answer E op (world s) in
      let '(o, s', t) := run (k r) (mkSt (glob s) w' (parked s)) in
      (o, s', Called op r :: t)
  | Await op k =>
      let (r, w') := answer E op (world s) in
      let '(o, s', t) := run (k r) (mkSt (glob s) w' (parked s)) in
      (o, s', Called op r :: t)
  | Yield k => run k s
  | Spawn c k =>
      let '(bc, s1, t1) := advance c s in
      let (s2, t2) := park bc s1 in
      let '(o, s3, t3) := run k s2 in
      (o, s3, t1 ++ t2 ++ t3)
  end.

(** Starting a call from the event loop. *)
Definition start {R : Type} (p : Prog R) (s : St) : St :=
  let '(b, s1, _) := advance p s in fst (park b s1).

Fixpoint remove_nth {A : Type} (i : nat) (l : list A) : list A :=
  match l, i with
  | [], _ => []
  | _ :: tl, O => tl
  | x :: tl, S j => x :: remove_nth j tl
  end.

(** The [i]-th parked task has its turn: the engine settles the call it
    waits for, if it waits for one, and it runs on to its next
    suspension. *)
Definition resume (i : nat) (s : St) : St :=
  match nth_error (parked s) i with
  | None => s
  | Some (Parked op k) =>
      let (r, w') := answer E op (world s) in
      start (k r) (mkSt (glob s) w' (remove_nth i (parked s)))
  | Some (Resting k) =>
      start k (mkSt (glob s) (world s) (remove_nth i (parked s)))
  end.

End Semantics.

Arguments mkSt {E} glob world parked.
Arguments glob {E} s.
Arguments world {E} s.
Arguments parked {E} s.

(* ------------------------------------------------------------------ *)
(** ** The program: [apps/playwright-service-ts/api.ts] *)

Inductive Json : Type :=
| JStr (s : string)
| JNum (z : Z)
| JNull.

(** What a handler sends: [res.status(code).json(object)]. *)
Record HttpResponse : Type :=
  mkHttp { http_status : Z; http_body : list (string * Json) }.

(** The body of a [POST /scrape]; [None] is an absent field. *)
Record UrlModel : Type :=
  mkUrlModel {
      url : option string;
      wait_after_load : option Z;
      timeout : option Z;
      headers : option Headers;
      check_selector : option string }.

(** What [scrapePage] returns. *)
Record ScrapeResult : Type :=
  mkResult {
      content : string;
      status : option Z;
      result_headers : option Headers }.

Definition AD_SERVING_DOMAINS : list string :=
  [ "doubleclick.net";
    "adservice.google.com";
    "googlesyndication.com";
    "googletagservices.com";
    "googletagmanager.com";
    "google-analytics.com";
    "adsystem.com";
    "adservice.com";
    "adnxs.com";
    "ads-twitter.com";
    "facebook.net";
    "fbcdn.net";
    "amazon-adsystem.com" ].

Definition MEDIA_GLOB : string :=
  "**/*.{png,jpg,jpeg,gif,svg,mp3,mp4,avi,flac,ogg,wav,webm}".

Definition ALL_GLOB : string := "**/*".

Definition launchOptions : LaunchOptions :=
  mkLaunch true
    [ "--no-sandbox";
      "--disable-setuid-sandbox";
      "--disable-dev-shm-usage";
      "--disable-accelerated-2d-canvas";
      "--no-first-run";
      "--no-zygote";
      "--single-process";
      "--disable-gpu" ].

(** What reading a property of [undefined] throws. *)
Definition TypeError : Err := "TypeError: Cannot read properties of undefined".

(** The error [new URL] throws. *)
Definition InvalidURL : Err := "TypeError: Invalid URL".

Section Program.

Variable rt : Runtime.

Definition BLOCK_MEDIA : bool :=
  (JS.toUpperCase (JS.or_else (env_BLOCK_MEDIA (env rt)) "False") =? "TRUE")%string.

Definition PROXY_SERVER : option string := JS.or_null (env_PROXY_SERVER (env rt)).
Definition PROXY_USERNAME : option string := JS.or_null (env_PROXY_USERNAME (env rt)).
Definition PROXY_PASSWORD : option string := JS.or_null (env_PROXY_PASSWORD (env rt)).

Definition contextOptions (ua : string) : ContextOptions :=
  mkContextOptions ua (1280, 800)%Z
    match PROXY_SERVER, PROXY_USERNAME, PROXY_PASSWORD with
    | Some s, Some u, Some p => Some (mkProxy s (Some u) (Some p))
    | Some s, _, _ => Some (mkProxy s None None)
    | None, _, _ => None
    end.

(** The handler of the media route: [await route.abort()]. *)
Definition blockMedia : RouteHandler := fun _ => RouteAbort.

(** The handler of the catch-all route. *)
Definition blockAds : RouteHandler :=
  fun request =>
    match URL_parse rt (req_url request) with
    | None => RouteThrow InvalidURL
    | Some requestUrl =>
        if existsb (fun domain => JS.includes domain (hostname requestUrl))
                   AD_SERVING_DOMAINS
        then RouteAbort
        else RouteContinue
    end.

(** A use of the module-level variable [browser] as an object. *)
Definition the_browser : Prog Browser :=
  GetG (fun g => match browser g with
                 | Some b => Ret b
                 | None => Throw TypeError
                 end).

(** A use of the module-level variable [context] as an object. *)
Definition the_context : Prog Context :=
  GetG (fun g => match context g with
                 | Some c => Ret c
                 | None => Throw TypeError
                 end).

Local Open Scope prog_scope.

Definition initializeBrowser : Prog unit :=
  GetG (fun g =>
    if initializationInProgress g then Ret tt
    else
      setG (WInProgress true) ;;
      setG (WInitError None) ;;
      finally
        (try_catch
           (b <- await (Launch launchOptions) ;;
            setG (WBrowser b) ;;
            ua <- call NewUserAgent ;;
            b' <- the_browser ;;
            c <- await (NewContext b' (contextOptions ua)) ;;
            setG (WContext c) ;;
            (if BLOCK_MEDIA
             then c' <- the_context ;; await (Route c' MEDIA_GLOB blockMedia)
             else Ret tt) ;;
            c'' <- the_context ;;
            await (Route c'' ALL_GLOB blockAds) ;;
            setG (WInitialized true))
           (fun error =>
              setG (WInitError (Some error)) ;;
              setG (WInitialized false)))
        (setG (WInProgress false))).

Definition shutdownBrowser : Prog unit :=
  GetG (fun g =>
    (match context g with
     | Some c => await (ContextClose c)
     | None => Ret tt
     end) ;;
    GetG (fun g' =>
      match browser g' with
      | Some b => await (BrowserClose b)
      | None => Ret tt
      end)).

Definition isValidUrl (urlString : string) : bool :=
  match URL_parse rt urlString with
  | Some _ => true
  | None => false
  end.

(** The [content-type] entry, if any, names JSON or plain text. *)
Definition raw_content_type (h : Headers) : bool :=
  match find (fun x => (JS.toLowerCase (fst x) =? "content-type")%string) h with
  | Some ct =>
      JS.includes "application/json" (snd ct) || JS.includes "text/plain" (snd ct)
  | None => false
  end.

Definition scrapePage (page : Page) (url : string) (waitUntil : WaitUntil)
    (waitAfterLoad timeout : Z) (checkSelector : option string)
  : Prog ScrapeResult :=
  response <- await (Goto page url waitUntil timeout) ;;
  (if (waitAfterLoad >? 0)%Z
   then await (WaitForTimeout page waitAfterLoad)
   else Ret tt) ;;
  (match checkSelector with
   | Some sel =>
       if JS.truthy sel
       then try_catch (await (WaitForSelector page sel timeout))
                      (fun _ => Throw "Required selector not found")
       else Ret tt
   | None => Ret tt
   end) ;;
  rendered <- await (Content page) ;;
  match response with
  | Some r =>
      hs <- await (AllHeaders r) ;;
      text <- (if raw_content_type hs
               then b <- await (Body r) ;; Ret (Utf8.toString b)
               else Ret rendered) ;;
      Ret (mkResult text (Some (resp_status r)) (Some hs))
  | None => Ret (mkResult rendered None None)
  end.

(** [GET /health/liveness] *)
Definition health_liveness : Prog HttpResponse :=
  Ret (mkHttp 200 [("status", JStr "alive")]).

(** [GET /health/readiness] *)
Definition health_readiness : Prog HttpResponse :=
  GetG (fun g =>
    if browserInitialized g then
      Ret (mkHttp 200 [("status", JStr "ready")])
    else
      match browserInitError g with
      | Some e =>
          Ret (mkHttp 503 [("status", JStr "not ready"); ("error", JStr e)])
      | None =>
          if initializationInProgress g then
            Ret (mkHttp 503 [("status", JStr "not ready");
                             ("message", JStr "Browser initialization in progress")])
          else if negb (initializationInProgress g) && negb (browserInitialized g) then
            try_catch
              (Spawn initializeBrowser
                 (Ret (mkHttp 503 [("status", JStr "not ready");
                                   ("message", JStr "Browser initialization started")])))
              (fun _ =>
                 Ret (mkHttp 503 [("status", JStr "not ready");
                                  ("error", JStr "Failed to start browser initialization")]))
          else
            Ret (mkHttp 503 [("status", JStr "not ready");
                             ("message", JStr "Unknown state")])
      end).

Definition initFailed (details : string) : HttpResponse :=
  mkHttp 500 [("error", JStr "Browser initialization failed");
              ("details", JStr details)].

Definition fetchFailed : HttpResponse :=
  mkHttp 500 [("error", JStr "An error occurred while fetching the page.")].

(** Lines 255 to 271 of the handler: bring the session up if it is not;
    [Some r] is the early [return] of the response [r]. *)
Definition scrape_session : Prog (option HttpResponse) :=
  GetG (fun g =>
    if match browser g with Some _ => false | None => true end
       || match context g with Some _ => false | None => true end
       || negb (browserInitialized g)
    then
      try_catch
        (awaited initializeBrowser ;;
         GetG (fun g' =>
           if negb (browserInitialized g')
           then Ret (Some (initFailed (JS.or_else (browserInitError g') "Unknown error")))
           else Ret None))
        (fun error => Ret (Some (initFailed error)))
    else Ret None).

(** Lines 255 to 278: the session, a page of its own for the request, and
    the extra headers; [inl r] is the early [return] of the response [r]. *)
Definition scrape_open (body : UrlModel) : Prog (HttpResponse + Page) :=
  early <- scrape_session ;;
  match early with
  | Some r => Ret (inl r)
  | None =>
      c <- the_context ;;
      page <- await (NewPage c) ;;
      (match headers body with
       | Some h => await (SetExtraHTTPHeaders page h)
       | None => Ret tt
       end) ;;
      Ret (inr page)
  end.

(** Lines 280 to 294: the two strategies; [inl r] is the early [return]. *)
Definition scrape_strategies (page : Page) (u : string)
    (waitAfterLoad tmo : Z) (sel : option string)
  : Prog (HttpResponse + ScrapeResult) :=
  try_catch
    (result <- awaited (scrapePage page u Load waitAfterLoad tmo sel) ;;
     Ret (inr result))
    (fun _ =>
       try_catch
         (result <- awaited (scrapePage page u NetworkIdle waitAfterLoad tmo sel) ;;
          Ret (inr result))
         (fun _ => await (PageClose page) ;; Ret (inl fetchFailed))).

(** Lines 296 to 310: annotate, close the page, answer. *)
Definition scrape_answer (page : Page) (result : ScrapeResult) : Prog HttpResponse :=
  let pageError :=
    if match status result with Some 200%Z => false | _ => true end
    then getError rt (status result)
    else None in
  await (PageClose page) ;;
  Ret (mkHttp 200
         ([("content", JStr (content result));
           ("pageStatusCode", match status result with
                              | Some z => JNum z
                              | None => JNull
                              end)]
          ++ match pageError with
             | Some e => if JS.truthy e then [("pageError", JStr e)] else []
             | None => []
             end)).

Definition wait_of (body : UrlModel) : Z :=
  match wait_after_load body with
  | Some n => n
  | None => 0%Z
  end.

Definition timeout_of (body : UrlModel) : Z :=
  match timeout body with
  | Some n => n
  | None => 15000%Z
  end.

Definition urlRequired : HttpResponse := mkHttp 400 [("error", JStr "URL is required")].
Definition invalidUrl : HttpResponse := mkHttp 400 [("error", JStr "Invalid URL")].

(** [POST /scrape] *)
Definition scrape (body : UrlModel) : Prog HttpResponse :=
  match url body with
  | None => Ret urlRequired
  | Some u =>
      if negb (JS.truthy u) then Ret urlRequired
      else if negb (isValidUrl u) then Ret invalidUrl
      else
        opened <- scrape_open body ;;
        match opened with
        | inl response => Ret response
        | inr page =>
            r <- scrape_strategies page u (wait_of body) (timeout_of body)
                                   (check_selector body) ;;
            match r with
            | inl response => Ret response
            | inr result => scrape_answer page result
            end
        end
  end.

(** What the event loop can start: the [listen] callback, the three
    routes, and the [SIGINT] handler. *)
Inductive Activity : Type :=
| Listen
| GetLiveness
| GetReadiness
| PostScrape (body : UrlModel)
| Sigint.

Definition entry (a : Activity) : Prog (option HttpResponse) :=
  match a with
  | Listen => awaited initializeBrowser ;; Ret None
  | GetLiveness => r <- health_liveness ;; Ret (Some r)
  | GetReadiness => r <- health_readiness ;; Ret (Some r)
  | PostScrape body => r <- scrape body ;; Ret (Some r)
  | Sigint => awaited shutdownBrowser ;; Ret None
  end.

End Program.

(* ------------------------------------------------------------------ *)
(** ** Route dispatch in the browser context

    [context.route] puts the new handler in front of the ones registered
    before.  For a request the context walks its handlers from the front
    and gives the route to the first whose glob matches the URL; a handler
    that aborts or continues the route settles it, and the handlers behind
    it are not consulted (only [route.fallback], which this program never
    calls, hands a route on).  A request no handler matches continues. *)

Module Routing.

Definition RouteTable : Type := list (string * RouteHandler).

Inductive Fate : Type :=
| Aborted
| Continued
| Stalled (e : Err).   (* the handler threw: the route is never settled *)

Definition settle (a : RouteAction) : Fate :=
  match a with
  | RouteAbort => Aborted
  | RouteContinue => Continued
  | RouteThrow e => Stalled e
  end.

Fixpoint onRoute (routes : RouteTable) (request : SubRequest) : Fate :=
  match routes with
  | [] => Continued
  | (glob, handler) :: rest =>
      if Glob.urlMatches glob (req_url request)
      then settle (handler request)
      else onRoute rest request
  end.

Definition Context_eqb (a b : Context) : bool :=
  match a, b with
  | ContextH i, ContextH j => Nat.eqb i j
  end.

(** The registration an event makes on context [c], if any. *)
Definition registration (c : Context) (ev : Event) : option (string * RouteHandler) :=
  match ev with
  | Called op r =>
      match op in Op X return Res X -> option (string * RouteHandler) with
      | Route c' glob h =>
          fun r => match r with
                   | inl _ => if Context_eqb c c' then Some (glob, h) else None
                   | inr _ => None
                   end
      | _ => fun _ => None
      end r
  | _ => None
  end.

(** The handlers of context [c] after the events [evs], newest first. *)
Definition routes_of (c : Context) (evs : list Event) : RouteTable :=
  fold_left (fun tbl ev => match registration c ev with
                           | Some entry => entry :: tbl
                           | None => tbl
                           end) evs [].

End Routing.

(* ------------------------------------------------------------------ *)
(** ** Reading traces *)

(** The navigations of a trace: wait condition and timeout of each
    [page.goto], in order. *)
Definition navigation (ev : Event) : option (Page * string * WaitUntil * Z) :=
  match ev with
  | Called op _ =>
      match op with
      | Goto p u w t => Some (p, u, w, t)
      | _ => None
      end
  | _ => None
  end.

Fixpoint navigations (evs : list Event) : list (Page * string * WaitUntil * Z) :=
  match evs with
  | [] => []
  | ev :: rest =>
      match navigation ev with
      | Some n => n :: navigations rest
      | None => navigations rest
      end
  end.

Definition Page_eqb (a b : Page) : bool :=
  match a, b with
  | PageH i, PageH j => Nat.eqb i j
  end.

(** The event is a call of [page.close()] on [p]. *)
Definition closes (p : Page) (ev : Event) : bool :=
  match ev with
  | Called op _ =>
      match op with
      | PageClose q => Page_eqb p q
      | _ => false
      end
  | _ => false
  end.

(** The event is a call of [context.newPage()] that returned [p]. *)
Definition acquires (p : Page) (ev : Event) : bool :=
  match ev with
  | Called op r =>
      match op in Op X return Res X -> bool with
      | NewPage _ => fun r => match r with
                              | inl q => Page_eqb p q
                              | inr _ => false
                              end
      | _ => fun _ => false
      end r
  | _ => false
  end.

(** The event starts or makes a call of [chromium.launch]. *)
Definition launches (ev : Event) : bool :=
  match ev with
  | Issued op => is_launch op
  | Called op _ => is_launch op
  | Unhandled _ => false
  end.

(* ------------------------------------------------------------------ *)
(** ** The single-flight discipline

    A call is, at each point, in one of three positions towards the flag
    [initializationInProgress]: it holds it ([Hold]); it does not hold it
    and knows, from a read in the current synchronous stretch, that nobody
    does ([Free]); or it does not hold it and knows nothing ([Idle]).
    [follows m p] says that [p], started in position [m], sets the flag
    only from [Free], clears it only from [Hold], never ends while
    holding it, and launches the engine only while holding it. *)

Inductive Mode : Type := Idle | Free | Hold.

Definition suspended (m : Mode) : Mode :=
  match m with
  | Hold => Hold
  | _ => Idle
  end.

Fixpoint follows {R : Type} (m : Mode) (p : Prog R) : Prop :=
  match p with
  | Ret _ => m <> Hold
  | Throw _ => m <> Hold
  | GetG k =>
      forall g,
        match m with
        | Idle => follows (if initializationInProgress g then Idle else Free) (k g)
        | Free => initializationInProgress g = false -> follows Free (k g)
        | Hold => initializationInProgress g = true -> follows Hold (k g)
        end
  | SetG w k =>
      match w with
      | WInProgress v =>
          match m, v with
          | Free, true => follows Hold k
          | Hold, false => follows Free k
          | _, _ => False
          end
      | _ => follows m k
      end
  | Sync _ k => forall r, follows m (k r)
  | Await op k =>
      (is_launch op = true -> m = Hold) /\ forall r, follows (suspended m) (k r)
  | Yield k => follows (suspended m) k
  | Spawn c k => m <> Hold /\ follows m c /\ follows Idle k
  end.

Definition task_follows (m : Mode) (t : Task) : Prop :=
  match t with
  | Parked op k =>
      m <> Free /\ (is_launch op = true -> m = Hold) /\ forall r, follows m (k r)
  | Resting k => m <> Free /\ follows m k
  end.

Fixpoint holders (ms : list Mode) : nat :=
  match ms with
  | [] => 0
  | Hold :: rest => S (holders rest)
  | _ :: rest => holders rest
  end.



Definition flag_count (g : Globals) : nat :=
  if initializationInProgress g then 1 else 0.

Section System.

Variable rt : Runtime.
Variable E : Engine.



(** One turn of the event loop: something is started, or the engine
    settles a pending call. *)
Inductive step (s : St E) : St E -> Prop :=
| step_start (a : Activity) : step s (start (entry rt a) s)
| step_resume (i : nat) : step s (resume i s).

Inductive reachable : St E -> Prop :=
| reach_boot (w : World E) : reachable (mkSt globals0 w [])
| reach_step (s s' : St E) : reachable s -> step s s' -> reachable s'.


End System.

(* ------------------------------------------------------------------ *)
(** ** Instances to run the program on *)

(** Modelled from the spec: the helper [getError] of
    [./helpers/get_error], which the handler imports and which is not among
    the sources.  The spec calls it [classify]: no error for status 200,
    otherwise a category, one of client-error range, server-error range,
    redirect-exhausted and unknown. *)
Definition classify (statusCode : option Z) : option string :=
  match statusCode with
  | Some c =>
      if (c =? 200)%Z then None
      else if ((400 <=? c) && (c <=? 499))%Z then Some "client-error"
      else if ((500 <=? c) && (c <=? 599))%Z then Some "server-error"
      else if ((300 <=? c) && (c <=? 399))%Z then Some "redirect-exhausted"
      else Some "unknown"
  | None => Some "unknown"
  end.

(** The platform's [URL] constructor on the handful of strings the
    examples use; every other string is taken not to parse. *)
Definition sample_URL (s : string) : option URL :=
  if (s =? "https://example.com/")%string
  then Some (mkURL "https:" "example.com")
  else if (s =? "https://example.com/logo.png")%string
  then Some (mkURL "https:" "example.com")
  else if (s =? "https://ad.doubleclick.net/pixel.js")%string
  then Some (mkURL "https:" "ad.doubleclick.net")
  else if (s =? "mailto:someone@example.com")%string
  then Some (mkURL "mailto:" "")
  else None.

(** A deployment with media blocking switched on and no proxy. *)
Definition sample_runtime : Runtime :=
  mkRuntime sample_URL classify (mkEnv (Some "true") None None None).

(** A target site and a browser, as far as the program can tell them
    apart. *)
Record Site : Type :=
  mkSite {
      site_launch_fails : bool;        (* the engine does not start *)
      site_context_stuck : bool;       (* context.close rejects *)
      site_load_fails : bool;          (* "load" does not fire in time *)
      site_idle_fails : bool;          (* the network never goes quiet *)
      site_selector_from : nat;        (* calls before the selector shows; *)
      site_has_selector : bool;        (*   never, if this is false *)
      site_response : option Response;
      site_headers : Headers;
      site_body : list byte;
      site_html : string }.

(** The world of [site_engine] counts the calls answered so far.  The
    browser refuses a header whose name holds a space. *)
Definition site_answer (site : Site) (X : Type) (op : Op X) (n : nat) : Res X * nat :=
  (match op in Op X return Res X with
   | Launch _ =>
       if site_launch_fails site then inr "Failed to launch chromium" else inl (BrowserH 1)
   | NewUserAgent => inl "Mozilla/5.0"
   | NewContext _ _ => inl (ContextH 1)
   | Route _ _ _ => inl tt
   | ContextClose _ =>
       if site_context_stuck site then inr "Target closed" else inl tt
   | BrowserClose _ => inl tt
   | NewPage _ => inl (PageH n)
   | SetExtraHTTPHeaders _ h =>
       if existsb (fun kv => JS.includes " " (fst kv)) h
       then inr "Invalid header name"
       else inl tt
   | Goto _ _ w _ =>
       match w with
       | Load =>
           if site_load_fails site then inr "Timeout exceeded" else inl (site_response site)
       | NetworkIdle =>
           if site_idle_fails site then inr "Timeout exceeded" else inl (site_response site)
       end
   | WaitForTimeout _ _ => inl tt
   | WaitForSelector _ _ _ =>
       if site_has_selector site && (site_selector_from site <=? n)%nat
       then inl tt
       else inr "Timeout exceeded"
   | Content _ => inl (site_html site)
   | AllHeaders _ => inl (site_headers site)
   | Body _ => inl (site_body site)
   | PageClose _ => inl tt
   end, S n).

Definition site_engine (site : Site) : Engine := mkEngine (site_answer site).

(** An HTML page served with status 200. *)
Definition plain_site : Site :=
  mkSite false false false false 0 true
         (Some (mkResponse 1 200))
         [("content-type", "text/html; charset=utf-8")]
         (Utf8.bytes_of "<p>hi</p>")
         "<html><head></head><body><p>hi</p></body></html>".



(** A page answered with status 404. *)
Definition missing_site : Site :=
  mkSite false false false false 0 true
         (Some (mkResponse 1 404))
         [("content-type", "text/html")]
         (Utf8.bytes_of "Not Found")
         "<html><head></head><body>Not Found</body></html>".

(** A page whose "load" event is late and whose network goes quiet. *)
Definition slow_site : Site :=
  mkSite false false true false 0 true
         (Some (mkResponse 1 200))
         [("content-type", "text/html")]
         (Utf8.bytes_of "<p>late</p>")
         "<html><head></head><body><p>late</p></body></html>".

(** A page that never shows the element asked for. *)
Definition bare_site : Site :=
  mkSite false false false false 0 false
         (Some (mkResponse 1 200))
         [("content-type", "text/html")]
         (Utf8.bytes_of "<p>hi</p>")
         "<html><head></head><body><p>hi</p></body></html>".

(** A page that shows the element asked for only after a while: by the
    fourth call the browser answers. *)
Definition lazy_site : Site :=
  mkSite false false false false 3 true
         (Some (mkResponse 1 200))
         [("content-type", "text/html")]
         (Utf8.bytes_of "<p id=late>hi</p>")
         "<html><head></head><body><p id=late>hi</p></body></html>".

(** A browser whose context cannot be closed. *)
Definition stuck_site : Site :=
  mkSite false true false false 0 true
         (Some (mkResponse 1 200))
         [("content-type", "text/html")]
         (Utf8.bytes_of "<p>hi</p>")
         "<html><head></head><body><p>hi</p></body></html>".

(** A machine on which the engine does not start. *)
Definition broken_site : Site :=
  mkSite true false false false 0 true None [] [] "".

(** The session as [initializeBrowser] leaves it on success. *)
Definition ready : Globals :=
  mkGlobals (Some (BrowserH 1)) (Some (ContextH 1)) true None false.

(** The session after an initialization that failed with [e]. *)
Definition failed (e : Err) : Globals :=
  mkGlobals None None false (Some e) false.

Definition boot (site : Site) (g : Globals) : St (site_engine site) :=
  @mkSt (site_engine site) g 0 [].

Definition request (u : string) : UrlModel :=
  mkUrlModel (Some u) None None None None.

(** The value of a field of the answer, as sent. *)
Definition field (name : string) (r : HttpResponse) : option Json :=
  match find (fun kv => (fst kv =? name)%string) (http_body r) with
  | Some kv => Some (snd kv)
  | None => None
  end.

Definition launch_count (evs : list Event) : nat :=
  List.length (filter launches evs).

Definition outcome {E : Engine} {R : Type} (x : Res R * St E * list Event) : Res R :=
  fst (fst x).
Definition final {E : Engine} {R : Type} (x : Res R * St E * list Event) : St E :=
  snd (fst x).
Definition events {E : Engine} {R : Type} (x : Res R * St E * list Event) : list Event :=
  snd x.

(* ------------------------------------------------------------------ *)
(** ** The headers of a response, in words *)





(* ------------------------------------------------------------------ *)
(** ** More trace readers *)

(** What [f] reads off the events of a trace, in order. *)
Fixpoint collect {A : Type} (f : Event -> option A) (evs : list Event) : list A :=
  match evs with
  | [] => []
  | ev :: rest =>
      match f ev with
      | Some a => a :: collect f rest
      | None => collect f rest
      end
  end.

(** The default of [last] on a trace; stands for no call at all. *)
Definition no_event : Event := Unhandled "".

(** The page a successful [context.newPage()] returned. *)
Definition page_opened (ev : Event) : option Page :=
  match ev with
  | Called op r =>
      match op in Op X return Res X -> option Page with
      | NewPage _ => fun r => match r with
                              | inl p => Some p
                              | inr _ => None
                              end
      | _ => fun _ => None
      end r
  | _ => None
  end.

(** The page a call of [page.close()] was made on. *)
Definition page_closed (ev : Event) : option Page :=
  match ev with
  | Called op _ =>
      match op with
      | PageClose p => Some p
      | _ => None
      end
  | _ => None
  end.

(** The page and duration of a [page.waitForTimeout]. *)
Definition pause (ev : Event) : option (Page * Z) :=
  match ev with
  | Called op _ =>
      match op with
      | WaitForTimeout p ms => Some (p, ms)
      | _ => None
      end
  | _ => None
  end.

(** The page, selector and timeout of a [page.waitForSelector]. *)
Definition selector_wait (ev : Event) : option (Page * string * Z) :=
  match ev with
  | Called op _ =>
      match op with
      | WaitForSelector p sel t => Some (p, sel, t)
      | _ => None
      end
  | _ => None
  end.

(** The headers a [page.setExtraHTTPHeaders] was called with. *)
Definition headers_set (ev : Event) : option (Page * Headers) :=
  match ev with
  | Called op _ =>
      match op with
      | SetExtraHTTPHeaders p h => Some (p, h)
      | _ => None
      end
  | _ => None
  end.

(** The error of a call that threw or rejected. *)
Definition rejected (ev : Event) : option Err :=
  match ev with
  | Called _ (inr e) => Some e
  | _ => None
  end.

(** The call is a [page.waitForSelector]. *)
Definition is_selector_wait {X : Type} (op : Op X) : bool :=
  match op with
  | WaitForSelector _ _ _ => true
  | _ => false
  end.

(** The event is a call that was answered, as opposed to one left pending. *)
Definition answered (ev : Event) : bool :=
  match ev with
  | Called _ _ => true
  | _ => false
  end.

(* ------------------------------------------------------------------ *)
(** ** The session discipline

    The three health variables are written by [initializeBrowser] only, and
    in an order that matters: the flag is raised and the old error
    dropped before the first suspension; on failure the error is recorded,
    readiness lowered and the flag cleared with no suspension in between;
    readiness is raised only after both handles were assigned.
    [tidy d kb kc p] says that [p] keeps to that order, where [d] is the
    position of [p] towards the health variables and [kb], [kc] say that
    [p] is past an assignment of [browser], of [context]. *)

Inductive Stage : Type :=
| Outside    (* not initializing *)
| Sound      (* initializing, no error recorded *)
| Lowered    (* initializing, an error recorded only if not ready *)
| Torn.      (* initializing, error just recorded *)

Fixpoint tidy {R : Type} (d : Stage) (kb kc : bool) (p : Prog R) : Prop :=
  match p with
  | Ret _ => d = Outside
  | Throw _ => d = Outside
  | GetG k => forall g, tidy d kb kc (k g)
  | SetG w k =>
      match w with
      | WBrowser _ => tidy d true kc k
      | WContext _ => tidy d kb true k
      | WInitialized true =>
          d = Sound /\ kb = true /\ kc = true /\ tidy Sound kb kc k
      | WInitialized false =>
          match d with
          | Outside => False
          | Sound => tidy Sound kb kc k
          | Lowered => tidy Lowered kb kc k
          | Torn => tidy Lowered kb kc k
          end
      | WInitError None => d <> Outside /\ tidy Sound kb kc k
      | WInitError (Some _) => d <> Outside /\ tidy Torn kb kc k
      | WInProgress true => d = Outside /\ tidy Lowered kb kc k
      | WInProgress false => (d = Sound \/ d = Lowered) /\ tidy Outside kb kc k
      end
  | Sync _ k => forall r, tidy d kb kc (k r)
  | Await _ k => (d = Outside \/ d = Sound) /\ forall r, tidy d kb kc (k r)
  | Yield k => (d = Outside \/ d = Sound) /\ tidy d kb kc k
  | Spawn c k => d = Outside /\ tidy Outside kb kc c /\ tidy Outside kb kc k
  end.

(** The stage of a parked call, by its position towards the flag. *)
Definition stage_of (m : Mode) : Stage :=
  match m with
  | Hold => Sound
  | _ => Outside
  end.

(** A position towards the flag and a stage that go together. *)
Definition agree (m : Mode) (d : Stage) : Prop :=
  match m with
  | Hold => d <> Outside
  | _ => d = Outside
  end.

(** What is known of the handles is true of the state. *)
Definition known (g : Globals) (kb kc : bool) : Prop :=
  (kb = true -> browser g <> None) /\ (kc = true -> context g <> None).

(** Ready implies both handles. *)
Definition equipped (g : Globals) : Prop :=
  browserInitialized g = true -> browser g <> None /\ context g <> None.

(** What each stage promises about the recorded error. *)
Definition stage_holds (d : Stage) (g : Globals) : Prop :=
  match d with
  | Outside =>
      (initializationInProgress g = true -> browserInitError g = None) /\
      (browserInitialized g = true -> browserInitError g = None)
  | Sound => browserInitError g = None
  | Lowered => browserInitialized g = true -> browserInitError g = None
  | Torn => True
  end.

Definition task_tidy (d : Stage) (kb kc : bool) (t : Task) : Prop :=
  match t with
  | Parked _ k => forall r, tidy d kb kc (k r)
  | Resting k => tidy d kb kc k
  end.

Definition task_kept (g : Globals) (m : Mode) (t : Task) : Prop :=
  task_follows m t /\
  exists kb kc, task_tidy (stage_of m) kb kc t /\ known g kb kc.

(** The state of the session between two turns of the event loop: the
    flag is set exactly when one parked call holds it; an error is
    recorded only when no initialization is in flight and the session is
    not ready; a ready session has both handles. *)
Definition kept {E : Engine} (s : St E) : Prop :=
  exists ms,
    Forall2 (task_kept (glob s)) ms (parked s) /\
    holders ms = flag_count (glob s) /\
    stage_holds Outside (glob s) /\
    equipped (glob s).

(** What the position of the running call says of the state. *)
Definition mode_holds {E : Engine} (m : Mode) (ms : list Mode) (s : St E) : Prop :=
  match m with
  | Idle => holders ms = flag_count (glob s)
  | Free => initializationInProgress (glob s) = false /\ holders ms = 0
  | Hold => initializationInProgress (glob s) = true /\ holders ms = 0
  end.

(** The four states of the session, read off the health variables as the
    readiness probe reads them. *)
Inductive Health : Type :=
| Ready
| Failed (reason : Err)
| Initializing
| Uninitialized.

Definition health (g : Globals) : Health :=
  if browserInitialized g then Ready
  else match browserInitError g with
       | Some e => Failed e
       | None => if initializationInProgress g then Initializing else Uninitialized
       end.

(** A state the event loop reaches from boot by the given turns. *)
Inductive Turn : Type :=
| Start (a : Activity)
| Settle (i : nat).

Fixpoint turns {E : Engine} (rt : Runtime) (ts : list Turn) (s : St E) : St E :=
  match ts with
  | [] => s
  | Start a :: rest => turns rt rest (start (entry rt a) s)
  | Settle i :: rest => turns rt rest (resume i s)
  end.

(** The service right after [listen], with the launch pending, and after
    the initialization has run to its end. *)
Definition warming : St (site_engine plain_site) :=
  turns sample_runtime [Start Listen] (boot plain_site globals0).

Definition serving : St (site_engine plain_site) :=
  turns sample_runtime
        [Start Listen; Settle 0; Settle 0; Settle 0; Settle 0; Settle 0]
        (boot plain_site globals0).

(* ------------------------------------------------------------------ *)
(** * Properties *)

Arguments Utf8.toString : simpl never.
Arguments raw_content_type : simpl never.
Arguments JS.truthy : simpl never.
Arguments JS.or_else : simpl never.
Arguments Z.gtb : simpl never.
Arguments BLOCK_MEDIA : simpl never.
Arguments contextOptions : simpl never.
Arguments isValidUrl : simpl never.

(** Symbolic execution: split on every answer of the engine and on every
    test the program makes. *)
Ltac exec :=
  repeat (cbn;
    match goal with
    | |- context [answer ?E ?op ?w] => destruct (answer E op w) as [[?|?] ?]
    | |- context [match ?x with Some _ => _ | None => _ end] => destruct x
    | |- context [if ?b then _ else _] => destruct b
    end); cbn.

(** Membership in a list that is written out. *)
Ltac find_in := cbn [In]; repeat first [left; reflexivity | right].

(** ** Strings *)

Lemma startsWith_app (p s : string) : JS.startsWith p (p ++ s) = true.
Proof.
  induction p as [|c p IH]; cbn; [reflexivity|].
  now rewrite Ascii.eqb_refl, IH.
Qed.

Lemma startsWith_inv (p : string) :
  forall s, JS.startsWith p s = true -> exists t, s = (p ++ t)%string.
Proof.
  induction p as [|c p IH]; intros s H; cbn in *.
  - now exists s.
  - destruct s as [|d s]; [discriminate|].
    apply andb_true_iff in H as [Hc Hp]. apply Ascii.eqb_eq in Hc; subst d.
    destruct (IH _ Hp) as [t ->]. now exists t.
Qed.

Lemma startsWith_includes (p s : string) :
  JS.startsWith p s = true -> JS.includes p s = true.
Proof. intros H. destruct s; cbn in *; now rewrite H. Qed.

(** [includes] is the substring test: "contains", not "equals". *)
Lemma includes_spec (needle hay : string) :
  JS.includes needle hay = true <->
  exists before after, hay = (before ++ needle ++ after)%string.
Proof.
  split.
  - induction hay as [|c hay IH]; cbn; intros H.
    + rewrite orb_false_r in H. apply startsWith_inv in H as [t ->].
      now exists EmptyString, t.
    + apply orb_true_iff in H as [H|H].
      * apply startsWith_inv in H as [t ->]. now exists EmptyString, t.
      * destruct (IH H) as (b & a & ->). now exists (String c b), a.
  - intros (before & after & ->).
    induction before as [|c b IH]; cbn.
    + apply startsWith_includes, startsWith_app.
    + now rewrite IH, orb_true_r.
Qed.

(** ** Decoding *)

Lemma ascii_of_byte_N (b : byte) : ascii_of_N (Byte.to_N b) = ascii_of_byte b.
Proof. destruct b; reflexivity. Qed.

(** A body of ASCII bytes is its own decoding. *)
Lemma toString_ascii (bs : list byte) :
  Forall (fun b => (Byte.to_N b <= 127)%N) bs ->
  Utf8.toString bs = string_of_list_byte bs.
Proof.
  unfold Utf8.toString.
  induction 1 as [|b bs Hb _ IH]; cbn; [reflexivity|].
  unfold Utf8.lead. apply N.leb_le in Hb. rewrite Hb. cbn.
  now rewrite IH, ascii_of_byte_N.
Qed.

(** The euro sign, three bytes, is copied. *)
Example decode_euro :
  Utf8.toString [xe2; x82; xac] = string_of_list_byte [xe2; x82; xac].
Proof. reflexivity. Qed.

(** A sequence cut short becomes one replacement character. *)
Example decode_truncated : Utf8.toString [xe2; x82] = Utf8.replacement.
Proof. reflexivity. Qed.

(** An overlong encoding is not accepted: each byte is replaced. *)
Example decode_overlong :
  Utf8.toString [xc0; x80] = (Utf8.replacement ++ Utf8.replacement)%string.
Proof. reflexivity. Qed.

(** ** The globs of the program *)

Example media_glob_tokens :
  Glob.parse MEDIA_GLOB
  = [Glob.Deep; Glob.Star; Glob.Lit "."%char;
     Glob.Alt ["png"; "jpg"; "jpeg"; "gif"; "svg"; "mp3"; "mp4"; "avi";
               "flac"; "ogg"; "wav"; "webm"]].
Proof. reflexivity. Qed.

Example media_glob_png :
  Glob.urlMatches MEDIA_GLOB "https://example.com/img/logo.png" = true.
Proof. reflexivity. Qed.

Example media_glob_query :
  Glob.urlMatches MEDIA_GLOB "https://example.com/img/logo.png?v=2" = false.
Proof. reflexivity. Qed.

Example media_glob_page :
  Glob.urlMatches MEDIA_GLOB "https://example.com/" = false.
Proof. reflexivity. Qed.


Lemma deep_star_all (s : string) :
  forall fresh, Glob.deep (Glob.star (fun r => (r =? "")%string)) fresh s = true.
Proof.
  induction s as [|c s IH]; intros fresh; cbn.
  - now rewrite orb_true_r.
  - now rewrite IH, orb_true_r.
Qed.

Lemma ALL_GLOB_matches (u : string) : Glob.urlMatches ALL_GLOB u = true.
Proof. apply deep_star_all. Qed.

(** ** Sequencing *)

Section Sequencing.

Variable E : Engine.

Lemma run_bind (A : Type) (p : Prog A) :
  forall (B : Type) (f : A -> Prog B) (s : St E),
    run (bind p f) s =
    let '(o, s1, t1) := run p s in
    match o with
    | inl a => let '(o2, s2, t2) := run (f a) s1 in (o2, s2, t1 ++ t2)
    | inr e => (inr e, s1, t1)
    end.
Proof.
  induction p as [A a|A e|A k IH|A w k IH|A X op k IH|A X op k IH|A k IH|A c _ k IH];
    intros B f s; cbn.
  - destruct (run (f a) s) as [[o2 s2] t2]; reflexivity.
  - reflexivity.
  - apply IH.
  - apply IH.
  - destruct (answer E op (world s)) as [r w']. rewrite IH.
    destruct (run (k r) _) as [[[a|e] s1] t1];
      [destruct (run (f a) s1) as [[o2 s2] t2]|]; reflexivity.
  - destruct (answer E op (world s)) as [r w']. rewrite IH.
    destruct (run (k r) _) as [[[a|e] s1] t1];
      [destruct (run (f a) s1) as [[o2 s2] t2]|]; reflexivity.
  - apply IH.
  - destruct (advance c s) as [[bc s1] t1]. destruct (park bc s1) as [s2 t2].
    rewrite IH.
    destruct (run k s2) as [[[a|e] s3] t3];
      [destruct (run (f a) s3) as [[o2 s4] t4]|];
      rewrite <- ?app_assoc; reflexivity.
Qed.

Lemma run_try_catch (A : Type) (p : Prog A) :
  forall (h : Err -> Prog A) (s : St E),
    run (try_catch p h) s =
    let '(o, s1, t1) := run p s in
    match o with
    | inl a => (inl a, s1, t1)
    | inr e => let '(o2, s2, t2) := run (h e) s1 in (o2, s2, t1 ++ t2)
    end.
Proof.
  induction p as [A a|A e|A k IH|A w k IH|A X op k IH|A X op k IH|A k IH|A c _ k IH];
    intros h s; cbn.
  - reflexivity.
  - destruct (run (h e) s) as [[o2 s2] t2]; reflexivity.
  - apply IH.
  - apply IH.
  - destruct (answer E op (world s)) as [r w']. rewrite IH.
    destruct (run (k r) _) as [[[a|e] s1] t1];
      [|destruct (run (h e) s1) as [[o2 s2] t2]]; reflexivity.
  - destruct (answer E op (world s)) as [r w']. rewrite IH.
    destruct (run (k r) _) as [[[a|e] s1] t1];
      [|destruct (run (h e) s1) as [[o2 s2] t2]]; reflexivity.
  - apply IH.
  - destruct (advance c s) as [[bc s1] t1]. destruct (park bc s1) as [s2 t2].
    rewrite IH.
    destruct (run k s2) as [[[a|e] s3] t3];
      [|destruct (run (h e) s3) as [[o2 s4] t4]];
      rewrite <- ?app_assoc; reflexivity.
Qed.

(** Run alone, an awaited call is the call. *)
Lemma run_awaited (A : Type) (p : Prog A) :
  forall s : St E, run (awaited p) s = run p s.
Proof.
  induction p as [A a|A e|A k IH|A w k IH|A X op k IH|A X op k IH|A k IH|A c _ k IH];
    intros s; cbn; auto.
  - destruct (answer E op (world s)) as [r w']. now rewrite IH.
  - destruct (answer E op (world s)) as [r w']. now rewrite IH.
  - destruct (advance c s) as [[bc s1] t1]. destruct (park bc s1) as [s2 t2].
    now rewrite IH.
Qed.

Lemma run_eta (R : Type) (x : Res R * St E * list Event) :
  x = (outcome x, final x, events x).
Proof. now destruct x as [[o s] t]. Qed.

End Sequencing.

Lemma navigations_app (a b : list Event) :
  navigations (a ++ b) = navigations a ++ navigations b.
Proof.
  induction a as [|ev a IH]; cbn; [reflexivity|].
  destruct (navigation ev); cbn; now rewrite IH.
Qed.

Lemma launch_count_app (a b : list Event) :
  launch_count (a ++ b) = launch_count a + launch_count b.
Proof. unfold launch_count. now rewrite filter_app, length_app. Qed.

(** ** One attempt: [scrapePage] *)

Section Attempt.

Variable E : Engine.
Variables (page : Page) (u : string) (w : WaitUntil) (wal t : Z).
Variable sel : option string.

(** An attempt navigates once, first thing, as it was told to. *)
Lemma scrapePage_navigations (s : St E) :
  navigations (events (run (scrapePage page u w wal t sel) s)) = [(page, u, w, t)].
Proof. unfold scrapePage. exec; reflexivity. Qed.

Lemma scrapePage_launches (s : St E) :
  launch_count (events (run (scrapePage page u w wal t sel) s)) = 0.
Proof. unfold scrapePage. exec; reflexivity. Qed.

End Attempt.

(** ** The blocks of the [/scrape] handler *)

Section Blocks.

Variable rt : Runtime.
Variable E : Engine.

Lemma scrape_open_navigations (body : UrlModel) (s : St E) :
  navigations (events (run (scrape_open rt body) s)) = [].
Proof. unfold scrape_open, scrape_session, initializeBrowser. exec; reflexivity. Qed.

Lemma scrape_answer_navigations (page : Page) (result : ScrapeResult) (s : St E) :
  navigations (events (run (scrape_answer rt page result) s)) = [].
Proof. unfold scrape_answer. exec; reflexivity. Qed.

(** The answer after a completed attempt: status 200, the content and the
    status of the attempt. *)
Lemma scrape_answer_ok (page : Page) (result : ScrapeResult) (s : St E)
    (resp : HttpResponse) :
  outcome (run (scrape_answer rt page result) s) = inl resp ->
  http_status resp = 200%Z /\
  field "content" resp = Some (JStr (content result)) /\
  field "pageStatusCode" resp =
    Some (match status result with Some z => JNum z | None => JNull end).
Proof.
  unfold scrape_answer. cbn.
  destruct (answer E (PageClose page) (world s)) as [[[]|e] w']; cbn;
    intros H; inversion H; subst; cbn; auto.
Qed.

(** How the two strategies run, attempt by attempt. *)
Lemma scrape_strategies_run (page : Page) (u : string) (wal t : Z)
    (sel : option string) (s : St E) :
  let a1 := run (scrapePage page u Load wal t sel) s in
  let a2 := run (scrapePage page u NetworkIdle wal t sel) (final a1) in
  let c := run (await (PageClose page)) (final a2) in
  run (scrape_strategies page u wal t sel) s =
  match outcome a1 with
  | inl r1 => (inl (inr r1), final a1, events a1)
  | inr _ =>
      match outcome a2 with
      | inl r2 => (inl (inr r2), final a2, events a1 ++ events a2)
      | inr _ =>
          (match outcome c with
           | inl _ => inl (inl fetchFailed)
           | inr e => inr e
           end, final c, events a1 ++ events a2 ++ events c)
      end
  end.
Proof.
  cbv zeta. unfold scrape_strategies.
  rewrite run_try_catch, run_bind, run_awaited.
  destruct (run (scrapePage page u Load wal t sel) s) as [[[r1|e1] s1] t1];
    cbn [outcome final events fst snd run].
  - now rewrite app_nil_r.
  - rewrite run_try_catch, run_bind, run_awaited.
    destruct (run (scrapePage page u NetworkIdle wal t sel) s1) as [[[r2|e2] s2] t2];
      cbn [outcome final events fst snd run].
    + now rewrite app_nil_r.
    + cbn. destruct (answer E (PageClose page) (world s2)) as [[[]|e] w']; reflexivity.
Qed.

Lemma scrape_run (body : UrlModel) (u : string) (s : St E) :
  url body = Some u -> JS.truthy u = true -> isValidUrl rt u = true ->
  run (scrape rt body) s =
  let o := run (scrape_open rt body) s in
  match outcome o with
  | inr e => (inr e, final o, events o)
  | inl (inl response) => (inl response, final o, events o)
  | inl (inr page) =>
      let f := run (scrape_strategies page u (wait_of body) (timeout_of body)
                                      (check_selector body)) (final o) in
      match outcome f with
      | inr e => (inr e, final f, events o ++ events f)
      | inl (inl response) => (inl response, final f, events o ++ events f)
      | inl (inr result) =>
          let c := run (scrape_answer rt page result) (final f) in
          (outcome c, final c, events o ++ events f ++ events c)
      end
  end.
Proof.
  intros Hu Ht Hv. unfold scrape. rewrite Hu, Ht, Hv. cbn [negb].
  rewrite run_bind.
  destruct (run (scrape_open rt body) s) as [[[[response|page]|e] s0] t0];
    cbn [outcome final events fst snd run];
    [now rewrite app_nil_r| |reflexivity].
  rewrite run_bind.
  destruct (run (scrape_strategies page u _ _ _) s0) as [[[[response|result]|e] s1] t1];
    cbn [outcome final events fst snd run]; [now rewrite app_nil_r| |reflexivity].
  destruct (run (scrape_answer rt page result) s1) as [[o2 s2] t2]; reflexivity.
Qed.

End Blocks.

(* ------------------------------------------------------------------ *)
(** ** The end of a request *)

Section Closing.

Variable rt : Runtime.
Variable E : Engine.

Lemma not_200 (c : option Z) :
  c <> Some 200%Z -> match c with Some 200%Z => false | _ => true end = true.
Proof.
  intros Hne. destruct c as [z|]; [|reflexivity].
  destruct z as [|p|p]; try reflexivity.
  destruct (Pos.eq_dec p 200) as [->|Hp]; [now elim Hne|].
  do 8 (destruct p as [p|p|]; try reflexivity). now elim Hp.
Qed.

(** After a completed attempt the handler closes the page and answers:
    [scrape_answer] ends as [page.close()] ends, and when that resolves
    the answer is the success answer. *)
Lemma scrape_answer_run (page : Page) (result : ScrapeResult) (s : St E) :
  let c := run (await (PageClose page)) s in
  let a := run (scrape_answer rt page result) s in
  final a = final c /\ events a = events c /\
  events c = [Called (PageClose page) (outcome c)] /\
  match outcome c with
  | inr e => outcome a = inr e
  | inl _ =>
      exists resp,
        outcome a = inl resp /\
        http_status resp = 200%Z /\
        field "content" resp = Some (JStr (content result)) /\
        field "pageStatusCode" resp =
          Some (match status result with Some z => JNum z | None => JNull end) /\
        (status result = Some 200%Z -> field "pageError" resp = None) /\
        (status result <> Some 200%Z ->
         field "pageError" resp =
           match getError rt (status result) with
           | Some e => if JS.truthy e then Some (JStr e) else None
           | None => None
           end)
  end.
Proof.
  cbv zeta. unfold scrape_answer. cbn.
  destruct (answer E (PageClose page) (world s)) as [[[]|e] w']; cbn;
    (split; [reflexivity|]); (split; [reflexivity|]); (split; [reflexivity|]);
    [|reflexivity].
  eexists. split; [reflexivity|]. split; [reflexivity|].
  split; [reflexivity|]. split; [reflexivity|]. split.
  - intros ->. reflexivity.
  - intros Hne. rewrite (not_200 Hne).
    destruct (getError rt (status result)) as [e|]; [|reflexivity].
    destruct (JS.truthy e); reflexivity.
Qed.

End Closing.

(* ------------------------------------------------------------------ *)
(** ** C1: the two navigation strategies *)

(** C1.  Once the handler has its page, it navigates with wait condition
    [Load], bounded by the [timeout] of the request, 15000 when the request
    gives none.  If that attempt completes, the handler navigates no more,
    closes the page and answers 200 with the content of that attempt.  If
    it fails, for whatever reason, the handler makes one attempt with
    [NetworkIdle] and the same timeout: if that one completes, the handler
    closes the page and answers 200 with the content of the second
    attempt; if it fails too, the page is closed and the answer is the
    fetch failure, status 500.  No path navigates a third time.  On every
    path the handler ends with a rejection instead of its answer exactly
    when [page.close()] rejects. *)
Theorem navigation_fallback (rt : Runtime) (E : Engine) (body : UrlModel)
    (u : string) (s s0 : St E) (page : Page) (t0 : list Event) :
  url body = Some u -> JS.truthy u = true -> isValidUrl rt u = true ->
  run (scrape_open rt body) s = (inl (inr page), s0, t0) ->
  let timeoutMs := match timeout body with Some n => n | None => 15000%Z end in
  let waitMs := match wait_after_load body with Some n => n | None => 0%Z end in
  let attempt w st :=
    run (scrapePage page u w waitMs timeoutMs (check_selector body)) st in
  let a1 := attempt Load s0 in
  let a2 := attempt NetworkIdle (final a1) in
  let x := run (scrape rt body) s in
  let answered (r : ScrapeResult) (st : St E) (made : list Event) :=
    let c := run (await (PageClose page)) st in
    final x = final c /\
    events x = t0 ++ made ++ events c /\
    events c = [Called (PageClose page) (outcome c)] /\
    match outcome c with
    | inl _ =>
        exists resp, outcome x = inl resp /\
                     http_status resp = 200%Z /\
                     field "content" resp = Some (JStr (content r))
    | inr e => outcome x = inr e
    end in
  match outcome a1 with
  | inl r1 =>
      navigations (events x) = [(page, u, Load, timeoutMs)] /\
      answered r1 (final a1) (events a1)
  | inr _ =>
      navigations (events x) =
        [(page, u, Load, timeoutMs); (page, u, NetworkIdle, timeoutMs)] /\
      match outcome a2 with
      | inl r2 => answered r2 (final a2) (events a1 ++ events a2)
      | inr _ =>
          let c := run (await (PageClose page)) (final a2) in
          x = (match outcome c with
               | inl _ => inl fetchFailed
               | inr e => inr e
               end, final c, t0 ++ events a1 ++ events a2 ++ events c) /\
          events c = [Called (PageClose page) (outcome c)] /\
          http_status fetchFailed = 500%Z
      end
  end.
Proof.
  intros Hu Ht Hv Ho. cbv zeta.
  assert (Hn0 : navigations t0 = []).
  { pose proof (scrape_open_navigations rt body s) as H. now rewrite Ho in H. }
  rewrite (scrape_run rt body s Hu Ht Hv). rewrite Ho. cbn [outcome final events fst snd].
  rewrite scrape_strategies_run. unfold wait_of, timeout_of.
  set (tmo := match timeout body with Some n => n | None => 15000%Z end).
  set (wal := match wait_after_load body with Some n => n | None => 0%Z end).
  pose proof (scrapePage_navigations page u Load wal tmo (check_selector body) s0) as N1.
  destruct (run (scrapePage page u Load _ _ _) s0) as [[[r1|e1] s1] t1];
    cbn [outcome final events fst snd] in *.
  - pose proof (scrape_answer_navigations rt page r1 s1) as Nc.
    destruct (scrape_answer_run rt page r1 s1) as (Hf & He & Hc & Ha).
    destruct (run (scrape_answer rt page r1) s1) as [[oc sc] tc];
      cbn [outcome final events fst snd] in *.
    split; [now rewrite !navigations_app, Hn0, N1, Nc|].
    split; [exact Hf|]. split; [now rewrite He|]. split; [exact Hc|].
    destruct (outcome (run (await (PageClose page)) s1)) as [[]|e]; [|exact Ha].
    destruct Ha as (resp & H1 & H2 & H3 & _). exists resp. auto.
  - pose proof (scrapePage_navigations page u NetworkIdle wal tmo
                  (check_selector body) s1) as N2.
    destruct (run (scrapePage page u NetworkIdle _ _ _) s1) as [[[r2|e2] s2] t2];
      cbn [outcome final events fst snd] in *.
    + pose proof (scrape_answer_navigations rt page r2 s2) as Nc.
      destruct (scrape_answer_run rt page r2 s2) as (Hf & He & Hc & Ha).
      destruct (run (scrape_answer rt page r2) s2) as [[oc sc] tc];
        cbn [outcome final events fst snd] in *.
      split; [now rewrite !navigations_app, Hn0, N1, N2, Nc|].
      split; [exact Hf|]. split; [now rewrite He|]. split; [exact Hc|].
      destruct (outcome (run (await (PageClose page)) s2)) as [[]|e]; [|exact Ha].
      destruct Ha as (resp & H1 & H2 & H3 & _). exists resp. auto.
    + assert (Hc : events (run (await (PageClose page)) s2) =
                     [Called (PageClose page) (outcome (run (await (PageClose page)) s2))]).
      { cbn. now destruct (answer E (PageClose page) (world s2)) as [[[]|e] w']. }
      destruct (run (await (PageClose page)) s2) as [[[[]|e] sc] tc];
        cbn [outcome final events fst snd] in *; subst tc;
        (split; [now rewrite !navigations_app, Hn0, N1, N2|]); repeat split.
Qed.

(** The theorem on a page whose "load" event is late: two navigations,
    and the answer carries the content of the second attempt. *)
Lemma navigation_fallback_witness :
  let x := run (scrape sample_runtime (request "https://example.com/"))
               (boot slow_site ready) in
  navigations (events x) =
    [(PageH 0, "https://example.com/", Load, 15000%Z);
     (PageH 0, "https://example.com/", NetworkIdle, 15000%Z)] /\
  exists resp,
    outcome x = inl resp /\
    http_status resp = 200%Z /\
    field "content" resp = Some (JStr (site_html slow_site)).
Proof.
  pose proof (@navigation_fallback sample_runtime (site_engine slow_site)
                (request "https://example.com/") "https://example.com/"
                (boot slow_site ready) _ _ _ eq_refl eq_refl eq_refl eq_refl) as H.
  vm_compute in H. destruct H as (H1 & _ & _ & _ & resp & Hr & Hs & Hc).
  split; [exact H1|]. exists resp. split; [exact Hr|]. split; [exact Hs|exact Hc].
Defined.

(* ------------------------------------------------------------------ *)
(** ** C2: a selector that does not show *)

(** C2, as stated, fails.  On a page that loads and never shows
    [#missing], the failed selector wait of the first attempt is followed
    by a second navigation, with [NetworkIdle], and a second selector
    wait; only then is the page closed and the request failed. *)
Lemma selector_failure_renavigates :
  let body := mkUrlModel (Some "https://example.com/") None None None (Some "#missing") in
  let x := run (scrape sample_runtime body) (boot bare_site ready) in
  events x =
    [Called (NewPage (ContextH 1)) (inl (PageH 0));
     Called (Goto (PageH 0) "https://example.com/" Load 15000) (inl (site_response bare_site));
     Called (WaitForSelector (PageH 0) "#missing" 15000) (inr "Timeout exceeded");
     Called (Goto (PageH 0) "https://example.com/" NetworkIdle 15000)
            (inl (site_response bare_site));
     Called (WaitForSelector (PageH 0) "#missing" 15000) (inr "Timeout exceeded");
     Called (PageClose (PageH 0)) (inl tt)] /\
  navigations (events x) <> [(PageH 0, "https://example.com/", Load, 15000%Z)] /\
  outcome x = inl fetchFailed.
Proof.
  cbv zeta. split; [reflexivity|]. split; [|reflexivity].
  vm_compute. discriminate.
Qed.

(** C2, amended.  When an attempt navigates, pauses if it was asked to,
    and then does not find the selector, it throws the selector error and
    has made exactly those calls, the selector wait last.  In the first
    attempt that error is handled like any other: the [NetworkIdle]
    attempt runs, so the request navigates twice; it is answered from the
    second attempt if that completes, and fails only if that fails too. *)
Theorem selector_failure_falls_back (E : Engine) (page : Page) (u sel : string)
    (wal t : Z) (s : St E) (response : option Response) (e : Err)
    (w1 w2 w3 : World E) :
  JS.truthy sel = true ->
  answer E (Goto page u Load t) (world s) = (inl response, w1) ->
  (if (wal >? 0)%Z
   then answer E (WaitForTimeout page wal) w1 = (inl tt, w2)
   else w2 = w1) ->
  answer E (WaitForSelector page sel t) w2 = (inr e, w3) ->
  let a1 := run (scrapePage page u Load wal t (Some sel)) s in
  let a2 := run (scrapePage page u NetworkIdle wal t (Some sel)) (final a1) in
  let x := run (scrape_strategies page u wal t (Some sel)) s in
  outcome a1 = inr "Required selector not found" /\
  events a1 =
    Called (Goto page u Load t) (inl response)
    :: (if (wal >? 0)%Z then [Called (WaitForTimeout page wal) (inl tt)] else [])
    ++ [Called (WaitForSelector page sel t) (inr e)] /\
  navigations (events x) = [(page, u, Load, t); (page, u, NetworkIdle, t)] /\
  match outcome a2 with
  | inl r2 => x = (inl (inr r2), final a2, events a1 ++ events a2)
  | inr _ =>
      outcome x = inl (inl fetchFailed) \/
      exists e', outcome x = inr e' /\
                 In (Called (PageClose page) (inr e')) (events x)
  end.
Proof.
  intros Ht Hg Hp Hs. cbv zeta.
  assert (H1 : run (scrapePage page u Load wal t (Some sel)) s =
               (inr "Required selector not found",
                mkSt (glob s) w3 (parked s),
                Called (Goto page u Load t) (inl response)
                :: (if (wal >? 0)%Z then [Called (WaitForTimeout page wal) (inl tt)] else [])
                ++ [Called (WaitForSelector page sel t) (inr e)])).
  { unfold scrapePage. cbn. rewrite Hg. cbn.
    destruct (wal >? 0)%Z; cbn.
    - rewrite Hp. cbn. rewrite Ht. cbn. rewrite Hs. reflexivity.
    - subst w2. rewrite Ht. cbn. rewrite Hs. reflexivity. }
  rewrite scrape_strategies_run. rewrite H1.
  cbn [outcome final events fst snd].
  set (s1 := mkSt (glob s) w3 (parked s)).
  pose proof (scrapePage_navigations page u NetworkIdle wal t (Some sel) s1) as N2.
  assert (N1 : navigations
                 (Called (Goto page u Load t) (inl response)
                  :: (if (wal >? 0)%Z then [Called (WaitForTimeout page wal) (inl tt)] else [])
                  ++ [Called (WaitForSelector page sel t) (inr e)]) = [(page, u, Load, t)]).
  { destruct (wal >? 0)%Z; reflexivity. }
  split; [reflexivity|]. split; [reflexivity|].
  destruct (run (scrapePage page u NetworkIdle wal t (Some sel)) s1) as [[[r2|e2] s2] t2];
    cbn [outcome final events fst snd] in *.
  - split; [|reflexivity]. now rewrite navigations_app, N1, N2.
  - cbn [run await].
    destruct (answer E (PageClose page) (world s2)) as [[[]|e'] w'];
      cbn [outcome final events fst snd raise_or_ret run].
    + split; [|now left]. now rewrite !navigations_app, N1, N2.
    + split; [now rewrite !navigations_app, N1, N2|].
      right. exists e'. split; [reflexivity|].
      apply in_or_app; right. apply in_or_app; right. now left.
Qed.

(** The theorem on the page that never shows [#missing]. *)
Lemma selector_failure_falls_back_witness :
  let a1 := run (scrapePage (PageH 0) "https://example.com/" Load 0 15000 (Some "#missing"))
                (boot bare_site ready) in
  outcome a1 = inr "Required selector not found".
Proof.
  exact (proj1 (@selector_failure_falls_back (site_engine bare_site) (PageH 0)
                  "https://example.com/" "#missing" 0 15000 (boot bare_site ready)
                  (site_response bare_site) "Timeout exceeded" 1 1 2
                  eq_refl eq_refl eq_refl eq_refl)).
Defined.

(** A selector that shows up in time for the second attempt: the request
    is answered, with status 200, after a failed selector wait. *)
Example late_selector_succeeds :
  let body := mkUrlModel (Some "https://example.com/") None None None (Some "#late") in
  let x := run (scrape sample_runtime body) (boot lazy_site ready) in
  outcome x = inl (mkHttp 200 [("content", JStr (site_html lazy_site));
                               ("pageStatusCode", JNum 200)]) /\
  In (Called (WaitForSelector (PageH 0) "#late" 15000) (inr "Timeout exceeded"))
     (events x) /\
  navigations (events x) =
    [(PageH 0, "https://example.com/", Load, 15000%Z);
     (PageH 0, "https://example.com/", NetworkIdle, 15000%Z)].
Proof. cbv zeta. split; [reflexivity|]. split; [|reflexivity]. cbn. find_in. Qed.

(* ------------------------------------------------------------------ *)
(** ** C6: what an attempt returns as content *)








(* ------------------------------------------------------------------ *)
(** ** What the [/scrape] handler can answer *)

Lemma truthy_false (u : string) : JS.truthy u = false <-> u = "".
Proof.
  unfold JS.truthy. rewrite negb_false_iff. apply String.eqb_eq.
Qed.

Lemma isValidUrl_spec (rt : Runtime) (u : string) :
  isValidUrl rt u = true <-> exists parsed, URL_parse rt u = Some parsed.
Proof.
  unfold isValidUrl. destruct (URL_parse rt u) as [p|].
  - split; [now exists p|reflexivity].
  - split; [discriminate|now intros [p H]].
Qed.

Section Answers.

Variable rt : Runtime.
Variable E : Engine.

Lemma scrape_open_response (body : UrlModel) (s : St E) (resp : HttpResponse) :
  outcome (run (scrape_open rt body) s) = inl (inl resp) ->
  exists details, resp = initFailed details.
Proof.
  unfold scrape_open, scrape_session, initializeBrowser.
  exec; intros H; inversion H; subst; eexists; reflexivity.
Qed.

(** Every answer of the handler is a validation failure, a session
    failure, the fetch failure, or the answer made from the result of a
    completed attempt. *)
Lemma scrape_responses (body : UrlModel) (s : St E) (resp : HttpResponse) :
  outcome (run (scrape rt body) s) = inl resp ->
  (resp = urlRequired /\ (url body = None \/ url body = Some "")) \/
  (resp = invalidUrl /\
   exists u, url body = Some u /\ u <> "" /\ URL_parse rt u = None) \/
  ((exists u parsed, url body = Some u /\ u <> "" /\ URL_parse rt u = Some parsed) /\
   ((exists details, resp = initFailed details) \/
    resp = fetchFailed \/
    exists page result (st : St E),
      outcome (run (scrape_answer rt page result) st) = inl resp)).
Proof.
  destruct (url body) as [u|] eqn:Hu.
  2:{ unfold scrape. rewrite Hu. cbn. intros H; inversion H. left. auto. }
  destruct (JS.truthy u) eqn:Ht.
  2:{ unfold scrape. rewrite Hu, Ht. cbn. intros H; inversion H.
      apply truthy_false in Ht; subst. left. auto. }
  assert (Hne : u <> "").
  { intros ->. discriminate Ht. }
  destruct (isValidUrl rt u) eqn:Hv.
  2:{ unfold scrape. rewrite Hu, Ht, Hv. cbn. intros H; inversion H.
      right; left. split; [reflexivity|]. exists u. repeat split; auto.
      unfold isValidUrl in Hv. now destruct (URL_parse rt u). }
  rewrite (scrape_run rt body s Hu Ht Hv). cbv zeta. intros H.
  right; right. split.
  { apply isValidUrl_spec in Hv as [parsed Hp]. now exists u, parsed. }
  pose proof (scrape_open_response body s) as Ho.
  destruct (run (scrape_open rt body) s) as [[[[r0|page]|e0] s0] t0];
    cbn [outcome final events fst snd] in *.
  - inversion H; subst. left. now apply Ho.
  - rewrite scrape_strategies_run in H.
    destruct (run (scrapePage page u Load _ _ _) s0) as [[[r1|e1] s1] t1];
      cbn [outcome final events fst snd] in *.
    + right; right. now exists page, r1, s1.
    + destruct (run (scrapePage page u NetworkIdle _ _ _) s1) as [[[r2|e2] s2] t2];
        cbn [outcome final events fst snd] in *.
      * right; right. now exists page, r2, s2.
      * destruct (run (await (PageClose page)) s2) as [[[[]|e3] s3] t3];
          cbn [outcome final events fst snd] in *; inversion H; subst.
        right; left; reflexivity.
  - discriminate H.
Qed.


End Answers.

(* ------------------------------------------------------------------ *)
(** ** C7: the status of the target page *)

(** The categories of [classify]: none for 200, a non-empty one for every
    other status and for no status at all. *)
Lemma classify_category (c : option Z) :
  c <> Some 200%Z -> exists e, classify c = Some e /\ JS.truthy e = true.
Proof.
  destruct c as [c|]; intros Hc; cbn; [|now exists "unknown"].
  destruct (c =? 200)%Z eqn:H200.
  - apply Z.eqb_eq in H200; subst. now elim Hc.
  - destruct ((400 <=? c) && (c <=? 499))%Z; [now eexists|].
    destruct ((500 <=? c) && (c <=? 599))%Z; [now eexists|].
    destruct ((300 <=? c) && (c <=? 399))%Z; now eexists.
Qed.

(** C7.  A request whose attempt completed, the first or the second, is
    answered by the handler as soon as [page.close()] resolves: the answer
    has status 200 whatever the status of the page, it carries that status
    as [pageStatusCode], it carries no [pageError] when that status is 200
    and otherwise the category [getError] gives, if that is not empty.
    With [getError] as the spec describes it, the [pageError] is present,
    and not empty, exactly when the status is not 200.  When both attempts
    failed the only answer is the fetch failure.  Every answer of the
    handler with another status than 200 is one of the four failure
    answers: the two validation failures (400), the session failure (500)
    and the fetch failure (500). *)
Theorem page_status_is_advisory (rt : Runtime) :
  (forall (E : Engine) (body : UrlModel) (u : string) (s s0 : St E) (page : Page)
          (t0 : list Event),
      url body = Some u -> JS.truthy u = true -> isValidUrl rt u = true ->
      run (scrape_open rt body) s = (inl (inr page), s0, t0) ->
      let attempt w st :=
        run (scrapePage page u w (wait_of body) (timeout_of body)
                        (check_selector body)) st in
      let a1 := attempt Load s0 in
      let a2 := attempt NetworkIdle (final a1) in
      let x := run (scrape rt body) s in
      let answered (r : ScrapeResult) (st : St E) :=
        match outcome (run (await (PageClose page)) st) with
        | inr e => outcome x = inr e
        | inl _ =>
            exists resp,
              outcome x = inl resp /\
              http_status resp = 200%Z /\
              field "pageStatusCode" resp =
                Some (match status r with Some z => JNum z | None => JNull end) /\
              (status r = Some 200%Z -> field "pageError" resp = None) /\
              (status r <> Some 200%Z ->
               field "pageError" resp =
                 match getError rt (status r) with
                 | Some e => if JS.truthy e then Some (JStr e) else None
                 | None => None
                 end) /\
              ((forall c, getError rt c = classify c) ->
               (status r <> Some 200%Z <->
                exists e, field "pageError" resp = Some (JStr e) /\ e <> ""))
        end in
      match outcome a1, outcome a2 with
      | inl r1, _ => answered r1 (final a1)
      | inr _, inl r2 => answered r2 (final a2)
      | inr _, inr _ => forall resp, outcome x = inl resp -> resp = fetchFailed
      end) /\
  (forall (E : Engine) (body : UrlModel) (s : St E) (resp : HttpResponse),
      outcome (run (scrape rt body) s) = inl resp ->
      http_status resp <> 200%Z ->
      (http_status resp = 400%Z /\ (resp = urlRequired \/ resp = invalidUrl)) \/
      (http_status resp = 500%Z /\
       ((exists details, resp = initFailed details) \/ resp = fetchFailed))).
Proof.
  assert (Hans : forall (E : Engine) (page : Page) (r : ScrapeResult) (st : St E),
            match outcome (run (await (PageClose page)) st) with
            | inr e => outcome (run (scrape_answer rt page r) st) = inr e
            | inl _ =>
                exists resp,
                  outcome (run (scrape_answer rt page r) st) = inl resp /\
                  http_status resp = 200%Z /\
                  field "pageStatusCode" resp =
                    Some (match status r with Some z => JNum z | None => JNull end) /\
                  (status r = Some 200%Z -> field "pageError" resp = None) /\
                  (status r <> Some 200%Z ->
                   field "pageError" resp =
                     match getError rt (status r) with
                     | Some e => if JS.truthy e then Some (JStr e) else None
                     | None => None
                     end) /\
                  ((forall c, getError rt c = classify c) ->
                   (status r <> Some 200%Z <->
                    exists e, field "pageError" resp = Some (JStr e) /\ e <> ""))
            end).
  { intros E page r st.
    destruct (scrape_answer_run rt page r st) as (_ & _ & _ & Ha).
    destruct (outcome (run (await (PageClose page)) st)) as [[]|e]; [|exact Ha].
    destruct Ha as (resp & Hr & Hs & _ & Hp & H200 & Hother).
    exists resp. split; [exact Hr|]. split; [exact Hs|]. split; [exact Hp|].
    split; [exact H200|]. split; [exact Hother|].
    intros Hget. split.
    - intros Hne. rewrite (Hother Hne), Hget.
      destruct (classify_category Hne) as (e & -> & He). rewrite He.
      exists e. split; [reflexivity|]. intros ->. discriminate He.
    - intros (e & He & _) H2. rewrite (H200 H2) in He. discriminate He. }
  split.
  - intros E body u s s0 page t0 Hu Ht Hv Ho. cbv zeta.
    rewrite (scrape_run rt body s Hu Ht Hv), Ho. cbn [outcome final events fst snd].
    rewrite scrape_strategies_run.
    destruct (run (scrapePage page u Load _ _ _) s0) as [[[r1|e1] s1] t1];
      cbn [outcome final events fst snd].
    + specialize (Hans E page r1 s1).
      destruct (run (scrape_answer rt page r1) s1) as [[oc sc] tc]. exact Hans.
    + destruct (run (scrapePage page u NetworkIdle _ _ _) s1) as [[[r2|e2] s2] t2];
        cbn [outcome final events fst snd].
      * specialize (Hans E page r2 s2).
        destruct (run (scrape_answer rt page r2) s2) as [[oc sc] tc]. exact Hans.
      * destruct (run (await (PageClose page)) s2) as [[[[]|e] sc] tc];
          cbn [outcome final events fst snd]; intros resp H; now inversion H.
  - intros E body s resp H Hne.
    destruct (scrape_responses rt body s H)
      as [[-> _]|[[-> _]|[_ [[d ->]|[->|(page & result & st & Hc)]]]]].
    + left. split; [reflexivity|]. now left.
    + left. split; [reflexivity|]. now right.
    + right. split; [reflexivity|]. left. now exists d.
    + right. split; [reflexivity|]. now right.
    + destruct (scrape_answer_ok rt page result st Hc) as (H200 & _). now elim Hne.
Qed.

(** The theorem with [classify] for [getError], on the page answered with
    404. *)
Lemma page_status_is_advisory_witness :
  exists resp,
    outcome (run (scrape sample_runtime (request "https://example.com/"))
                 (boot missing_site ready)) = inl resp /\
    http_status resp = 200%Z /\
    field "pageStatusCode" resp = Some (JNum 404) /\
    exists e, field "pageError" resp = Some (JStr e) /\ e <> "".
Proof.
  pose proof (proj1 (page_status_is_advisory sample_runtime)
                (site_engine missing_site)
                (request "https://example.com/") "https://example.com/"
                (boot missing_site ready) _ _ _ eq_refl eq_refl eq_refl eq_refl) as H.
  cbv zeta in H.
  change (exists resp,
    outcome (run (scrape sample_runtime (request "https://example.com/"))
                 (boot missing_site ready)) = inl resp /\
    http_status resp = 200%Z /\
    field "pageStatusCode" resp = Some (JNum 404) /\
    (Some 404%Z = Some 200%Z -> field "pageError" resp = None) /\
    (Some 404%Z <> Some 200%Z ->
     field "pageError" resp = Some (JStr "client-error")) /\
    ((forall c, classify c = classify c) ->
     (Some 404%Z <> Some 200%Z <->
      exists e, field "pageError" resp = Some (JStr e) /\ e <> ""))) in H.
  destruct H as (resp & Hr & Hs & Hp & _ & _ & Hiff).
  exists resp. split; [exact Hr|]. split; [exact Hs|]. split; [exact Hp|].
  apply (Hiff (fun c => eq_refl)). discriminate.
Defined.

(* ------------------------------------------------------------------ *)
(** ** C10: which URLs are accepted *)



(* ------------------------------------------------------------------ *)
(** ** C4: closing the page *)

(** Once the handler has its page and has set the headers, every path
    calls [page.close()] on it. *)
Lemma page_closed_once_opened (rt : Runtime) (E : Engine) (body : UrlModel)
    (u : string) (s s0 : St E) (page : Page) (t0 : list Event) :
  url body = Some u -> JS.truthy u = true -> isValidUrl rt u = true ->
  run (scrape_open rt body) s = (inl (inr page), s0, t0) ->
  existsb (closes page) (events (run (scrape rt body) s)) = true.
Proof.
  intros Hu Ht Hv Ho.
  assert (Hp : Page_eqb page page = true).
  { destruct page as [i]. apply Nat.eqb_refl. }
  assert (Hc : forall result (st : St E),
             existsb (closes page) (events (run (scrape_answer rt page result) st)) = true).
  { intros result st. unfold scrape_answer. cbn.
    destruct (answer E (PageClose page) (world st)) as [[[]|e] w']; cbn;
      now rewrite Hp. }
  rewrite (scrape_run rt body s Hu Ht Hv), Ho. cbn [outcome final events fst snd].
  rewrite scrape_strategies_run.
  destruct (run (scrapePage page u Load _ _ _) s0) as [[[r1|e1] s1] t1];
    cbn [outcome final events fst snd].
  - rewrite !existsb_app, Hc. now rewrite !orb_true_r.
  - destruct (run (scrapePage page u NetworkIdle _ _ _) s1) as [[[r2|e2] s2] t2];
      cbn [outcome final events fst snd].
    + rewrite !existsb_app, Hc. now rewrite !orb_true_r.
    + assert (Hk : existsb (closes page) (events (run (await (PageClose page)) s2)) = true).
      { cbn. destruct (answer E (PageClose page) (world s2)) as [[[]|e] w']; cbn;
          now rewrite Hp. }
      destruct (run (await (PageClose page)) s2) as [[[[]|e3] s3] t3];
        cbn [outcome final events fst snd] in *;
        rewrite !existsb_app, Hk; now rewrite !orb_true_r.
Qed.

(** C4 fails on the code.  When the browser rejects the extra headers of
    a request, here a header name with a space in it, the handler has
    acquired a page, ends with that rejection, and has not closed the
    page. *)
Theorem page_leaks_when_headers_rejected :
  let body := mkUrlModel (Some "https://example.com/") None None
                         (Some [("bad name", "x")]) None in
  let x := run (scrape sample_runtime body) (boot plain_site ready) in
  outcome x = inr "Invalid header name" /\
  events x =
    [Called (NewPage (ContextH 1)) (inl (PageH 0));
     Called (SetExtraHTTPHeaders (PageH 0) [("bad name", "x")])
            (inr "Invalid header name")] /\
  existsb (acquires (PageH 0)) (events x) = true /\
  existsb (closes (PageH 0)) (events x) = false.
Proof. cbv zeta. repeat split. Qed.

(* ------------------------------------------------------------------ *)
(** ** C9: shutdown *)

(** C9, as stated, fails.  When closing the context fails, [shutdown]
    ends with that failure and never calls [browser.close()]. *)
Lemma shutdown_stops_at_context_failure :
  run shutdownBrowser (boot stuck_site ready)
  = (inr "Target closed",
     @mkSt (site_engine stuck_site) ready 1 [],
     [Called (ContextClose (ContextH 1)) (inr "Target closed")]).
Proof. reflexivity. Qed.

(** C9, amended.  With both handles set, [shutdown] closes the context
    and, if that succeeds, the engine process: the process is closed
    exactly when closing the context did not fail, and a failure of the
    first step is the failure of [shutdown].  The module-level variables
    are left as they were, so a second call makes the same calls again
    and succeeds if the engine accepts them again. *)
Theorem shutdown_sequence (E : Engine) (s : St E) (c : Context) (b : Browser) :
  context (glob s) = Some c -> browser (glob s) = Some b ->
  let x := run shutdownBrowser s in
  let (r1, w1) := answer E (ContextClose c) (world s) in
  glob (final x) = glob s /\
  match r1 with
  | inr e =>
      x = (inr e, mkSt (glob s) w1 (parked s), [Called (ContextClose c) (inr e)])
  | inl _ =>
      let (r2, w2) := answer E (BrowserClose b) w1 in
      x = (match r2 with inl _ => inl tt | inr e => inr e end,
           mkSt (glob s) w2 (parked s),
           [Called (ContextClose c) r1; Called (BrowserClose b) r2]) /\
      exists r rest,
        events (run shutdownBrowser (final x)) = Called (ContextClose c) r :: rest
  end.
Proof.
  intros Hc Hb. cbv zeta. unfold shutdownBrowser. cbn. rewrite Hc. cbn.
  destruct (answer E (ContextClose c) (world s)) as [[[]|e1] w1] eqn:H1; cbn.
  - rewrite Hb. cbn.
    destruct (answer E (BrowserClose b) w1) as [[[]|e2] w2] eqn:H2; cbn;
      (split; [reflexivity|]); (split; [reflexivity|]);
      rewrite Hc; cbn;
      destruct (answer E (ContextClose c) w2) as [[[]|e3] w3] eqn:H3; cbn;
      rewrite ?Hb; cbn;
      try (destruct (answer E (BrowserClose b) w3) as [[[]|e4] w4] eqn:H4; cbn);
      eexists; eexists; reflexivity.
  - split; reflexivity.
Qed.

(** The theorem on a browser that closes: both calls, in order. *)
Lemma shutdown_sequence_witness :
  run shutdownBrowser (boot plain_site ready)
  = (inl tt, @mkSt (site_engine plain_site) ready 2 [],
     [Called (ContextClose (ContextH 1)) (inl tt);
      Called (BrowserClose (BrowserH 1)) (inl tt)]).
Proof.
  pose proof (@shutdown_sequence (site_engine plain_site) (boot plain_site ready)
                (ContextH 1) (BrowserH 1) eq_refl eq_refl) as H.
  cbn in H. exact (proj1 (proj2 H)).
Defined.

(* ------------------------------------------------------------------ *)
(** ** C8: bringing the session back *)

Section Reinitialization.

Variable rt : Runtime.
Variable E : Engine.

Lemma scrape_strategies_launches (page : Page) (u : string) (wal t : Z)
    (sel : option string) (s : St E) :
  launch_count (events (run (scrape_strategies page u wal t sel) s)) = 0.
Proof.
  rewrite scrape_strategies_run.
  pose proof (scrapePage_launches page u Load wal t sel s) as L1.
  destruct (run (scrapePage page u Load wal t sel) s) as [[[r1|e1] s1] t1];
    cbn [outcome final events fst snd] in *; [exact L1|].
  pose proof (scrapePage_launches page u NetworkIdle wal t sel s1) as L2.
  destruct (run (scrapePage page u NetworkIdle wal t sel) s1) as [[[r2|e2] s2] t2];
    cbn [outcome final events fst snd] in *.
  - now rewrite launch_count_app, L1, L2.
  - assert (Lc : launch_count (events (run (await (PageClose page)) s2)) = 0).
    { cbn. now destruct (answer E (PageClose page) (world s2)) as [[[]|e] w']. }
    destruct (run (await (PageClose page)) s2) as [[[[]|e3] s3] t3];
      cbn [outcome final events fst snd] in *;
      now rewrite !launch_count_app, L1, L2, Lc.
Qed.

Lemma scrape_strategies_glob (page : Page) (u : string) (wal t : Z)
    (sel : option string) (s : St E) :
  glob (final (run (scrape_strategies page u wal t sel) s)) = glob s.
Proof. unfold scrape_strategies, scrapePage. exec; reflexivity. Qed.

Lemma scrape_answer_launches (page : Page) (result : ScrapeResult) (s : St E) :
  launch_count (events (run (scrape_answer rt page result) s)) = 0.
Proof. unfold scrape_answer. exec; reflexivity. Qed.

Lemma scrape_answer_glob (page : Page) (result : ScrapeResult) (s : St E) :
  glob (final (run (scrape_answer rt page result) s)) = glob s.
Proof. unfold scrape_answer. exec; reflexivity. Qed.

Lemma scrape_open_launches (body : UrlModel) (s : St E) :
  launch_count (events (run (scrape_open rt body) s)) <= 1.
Proof.
  unfold scrape_open, scrape_session, initializeBrowser. exec; auto.
Qed.

(** From a session that is down and idle, the handler makes one
    initialization; if the session is still down after it, the reason
    is recorded and the answer is the session failure carrying it. *)
Lemma scrape_open_retry (body : UrlModel) (s : St E) :
  browserInitialized (glob s) = false ->
  initializationInProgress (glob s) = false ->
  let o := run (scrape_open rt body) s in
  launch_count (events o) = 1 /\
  (browserInitialized (glob (final o)) = false ->
   exists reason,
     browserInitError (glob (final o)) = Some reason /\
     outcome o = inl (inl (initFailed (JS.or_else (Some reason) "Unknown error")))).
Proof.
  destruct s as [[b c i e p] w q]. cbn [glob browserInitialized initializationInProgress].
  intros -> ->. cbv zeta.
  unfold scrape_open, scrape_session, initializeBrowser.
  exec; (split; [reflexivity|]); intros H; try discriminate H;
    eexists; split; reflexivity.
Qed.

End Reinitialization.

(** C8, as stated, fails.  After a failed initialization the readiness
    probe reports the recorded error and starts nothing: no call is made,
    no task is parked, the state is as it was. *)
Lemma readiness_after_failure_starts_nothing :
  run (health_readiness sample_runtime) (boot plain_site (failed "boom"))
  = (inl (mkHttp 503 [("status", JStr "not ready"); ("error", JStr "boom")]),
     boot plain_site (failed "boom"),
     []).
Proof. reflexivity. Qed.

(** C8, amended.  No request launches the engine more than once.  With the
    session down and no initialization in progress: a readiness probe
    that finds an error recorded reports it and starts nothing; one that
    finds none starts one initialization, answers 503 at once and leaves
    the launch pending; a scrape request with a valid URL makes exactly
    one launch and, if the session is still down after it, answers 500
    with the reason that initialization recorded. *)
Theorem reinitialization (rt : Runtime) (E : Engine) (s : St E) :
  browserInitialized (glob s) = false ->
  initializationInProgress (glob s) = false ->
  (launch_count (events (run (health_readiness rt) s)) <= 1 /\
   forall body, launch_count (events (run (scrape rt body) s)) <= 1) /\
  (let x := run (health_readiness rt) s in
   match browserInitError (glob s) with
   | Some e =>
       x = (inl (mkHttp 503 [("status", JStr "not ready"); ("error", JStr e)]), s, [])
   | None =>
       outcome x = inl (mkHttp 503 [("status", JStr "not ready");
                                    ("message", JStr "Browser initialization started")]) /\
       events x = [Issued (Launch launchOptions)] /\
       initializationInProgress (glob (final x)) = true /\
       exists k : Res Browser -> Prog unit,
         parked (final x) = parked s ++ [Parked (Launch launchOptions) k]
   end) /\
  (forall body u,
      url body = Some u -> JS.truthy u = true -> isValidUrl rt u = true ->
      let x := run (scrape rt body) s in
      launch_count (events x) = 1 /\
      (browserInitialized (glob (final x)) = false ->
       exists reason,
         browserInitError (glob (final x)) = Some reason /\
         outcome x = inl (initFailed (JS.or_else (Some reason) "Unknown error")))).
Proof.
  intros Hi Hp. split; [split|split].
  - unfold health_readiness, initializeBrowser. exec; auto.
  - intros body.
    destruct (url body) as [u|] eqn:Hu; [|unfold scrape; rewrite Hu; cbn; auto].
    destruct (JS.truthy u) eqn:Ht; [|unfold scrape; rewrite Hu, Ht; cbn; auto].
    destruct (isValidUrl rt u) eqn:Hv; [|unfold scrape; rewrite Hu, Ht, Hv; cbn; auto].
    rewrite (scrape_run rt body s Hu Ht Hv). cbv zeta.
    pose proof (scrape_open_launches rt body s) as L0.
    destruct (run (scrape_open rt body) s) as [[[[r0|page]|e0] s0] t0];
      cbn [outcome final events fst snd] in *; try exact L0.
    pose proof (scrape_strategies_launches page u (wait_of body) (timeout_of body)
                  (check_selector body) s0) as L1.
    destruct (run (scrape_strategies page u _ _ _) s0) as [[[[r1|result]|e1] s1] t1];
      cbn [outcome final events fst snd] in *;
      rewrite ?launch_count_app, ?L1, ?scrape_answer_launches; lia.
  - destruct s as [[b c i e p] w q].
    cbn [glob browserInitialized initializationInProgress browserInitError] in *.
    subst i p. cbv zeta. unfold health_readiness, initializeBrowser.
    destruct e as [e|]; cbn; [reflexivity|].
    repeat split. eexists. reflexivity.
  - intros body u Hu Ht Hv. cbv zeta.
    rewrite (scrape_run rt body s Hu Ht Hv). cbv zeta.
    destruct (scrape_open_retry rt body s Hi Hp) as [L0 R0].
    destruct (run (scrape_open rt body) s) as [[[[r0|page]|e0] s0] t0];
      cbn [outcome final events fst snd] in *.
    + split; [exact L0|].
      intros H. destruct (R0 H) as (reason & Hr & Ho).
      exists reason. split; [exact Hr|]. now inversion Ho.
    + pose proof (scrape_strategies_launches page u (wait_of body) (timeout_of body)
                    (check_selector body) s0) as L1.
      pose proof (scrape_strategies_glob page u (wait_of body) (timeout_of body)
                    (check_selector body) s0) as G1.
      destruct (run (scrape_strategies page u _ _ _) s0) as [[[[r1|result]|e1] s1] t1];
        cbn [outcome final events fst snd] in *;
        rewrite ?launch_count_app, ?L1, ?L0, ?scrape_answer_launches, ?scrape_answer_glob;
        (split; [lia|]); rewrite G1; intros H;
        destruct (R0 H) as (reason & _ & Ho); discriminate Ho.
    + split; [exact L0|].
      intros H. destruct (R0 H) as (reason & _ & Ho). discriminate Ho.
Qed.

(** The theorem on a machine where the engine does not start: a scrape
    request after a failure launches once and reports the new reason. *)
Lemma reinitialization_witness :
  let x := run (scrape sample_runtime (request "https://example.com/"))
               (boot broken_site (failed "boom")) in
  launch_count (events x) = 1 /\
  outcome x = inl (initFailed "Failed to launch chromium").
Proof.
  pose proof (@reinitialization sample_runtime (site_engine broken_site)
                (boot broken_site (failed "boom")) eq_refl eq_refl) as H.
  destruct H as [_ [_ H]].
  specialize (H (request "https://example.com/") "https://example.com/"
                eq_refl eq_refl eq_refl).
  cbv zeta in H. destruct H as [H1 H2]. split; [exact H1|].
  destruct (H2 eq_refl) as (reason & Hr & Ho).
  vm_compute in Hr. inversion Hr; subst reason. exact Ho.
Defined.

(* ------------------------------------------------------------------ *)
(** ** C5: the interception policy *)

Section Interception.

Variable rt : Runtime.

Lemma Context_eqb_refl (c : Context) : Routing.Context_eqb c c = true.
Proof. destruct c as [i]. apply Nat.eqb_refl. Qed.

(** The catch-all handler was registered last and matches every URL, so
    it is the handler every request is given to. *)
Lemma onRoute_catch_all (rest : Routing.RouteTable) (request : SubRequest) :
  Routing.onRoute ((ALL_GLOB, blockAds rt) :: rest) request
  = Routing.settle (blockAds rt request).
Proof. cbn [Routing.onRoute]. now rewrite ALL_GLOB_matches. Qed.

(** The routes of the context after an initialization that succeeded. *)
Lemma installed_routes (E : Engine) (s s' : St E) (tr : list Event) :
  initializationInProgress (glob s) = false ->
  run (initializeBrowser rt) s = (inl tt, s', tr) ->
  browserInitialized (glob s') = true ->
  exists c,
    context (glob s') = Some c /\
    Routing.routes_of c tr
    = (ALL_GLOB, blockAds rt)
      :: (if BLOCK_MEDIA rt then [(MEDIA_GLOB, blockMedia)] else []).
Proof.
  destruct s as [[b c i e p] w q]. cbn [glob initializationInProgress].
  intros ->. unfold initializeBrowser.
  repeat (cbn;
    match goal with
    | |- context [answer ?E ?op ?w] => destruct (answer E op w) as [[?|?] ?]
    | |- context [if ?b then _ else _] => destruct b eqn:?
    end); cbn;
  intros H; inversion H; subst; clear H; cbn; intros Hi; try discriminate Hi;
  eexists; (split; [reflexivity|]);
  unfold Routing.routes_of; cbn; rewrite !Context_eqb_refl; reflexivity.
Qed.

(** What the installed policy decides: abort when the host name of the
    request contains a deny-listed domain, continue otherwise, whatever
    the media setting and the file name. *)
Lemma installed_policy (E : Engine) (s s' : St E) (tr : list Event)
    (request : SubRequest) (parsed : URL) :
  initializationInProgress (glob s) = false ->
  run (initializeBrowser rt) s = (inl tt, s', tr) ->
  browserInitialized (glob s') = true ->
  URL_parse rt (req_url request) = Some parsed ->
  exists c,
    context (glob s') = Some c /\
    Routing.onRoute (Routing.routes_of c tr) request
    = if existsb (fun domain => JS.includes domain (hostname parsed)) AD_SERVING_DOMAINS
      then Routing.Aborted
      else Routing.Continued.
Proof.
  intros Hp Hr Hi Hu.
  destruct (installed_routes s Hp Hr Hi) as (c & Hc & Hroutes).
  exists c. split; [exact Hc|].
  rewrite Hroutes, onRoute_catch_all. unfold blockAds. rewrite Hu.
  now destruct (existsb _ AD_SERVING_DOMAINS).
Qed.

(** Asked in the order of registration, the same handlers would decide as
    the policy is described: media first, then the deny-list. *)
Lemma registration_order_policy (request : SubRequest) :
  Routing.onRoute
    (rev ((ALL_GLOB, blockAds rt)
          :: (if BLOCK_MEDIA rt then [(MEDIA_GLOB, blockMedia)] else [])))
    request
  = if BLOCK_MEDIA rt && Glob.urlMatches MEDIA_GLOB (req_url request)
    then Routing.Aborted
    else Routing.settle (blockAds rt request).
Proof.
  destruct (BLOCK_MEDIA rt); cbn [rev app andb Routing.onRoute].
  - destruct (Glob.urlMatches MEDIA_GLOB (req_url request)); [reflexivity|].
    now rewrite ALL_GLOB_matches.
  - now rewrite ALL_GLOB_matches.
Qed.

End Interception.

(** C5 fails on the code.  With media blocking switched on, the session
    initialized, and a request for an image on a host that is not
    deny-listed: the media glob matches the URL, the media route is
    installed, and the request continues all the same, because the
    catch-all route, registered after it, is asked first and settles the
    route.  Had the handlers been asked in the order of registration, the
    request would have been aborted. *)
Theorem media_route_shadowed :
  let x := run (initializeBrowser sample_runtime) (boot plain_site globals0) in
  let routes := Routing.routes_of (ContextH 1) (events x) in
  let request := mkSubRequest "https://example.com/logo.png" in
  BLOCK_MEDIA sample_runtime = true /\
  outcome x = inl tt /\
  glob (final x) = ready /\
  Glob.urlMatches MEDIA_GLOB (req_url request) = true /\
  routes = [(ALL_GLOB, blockAds sample_runtime); (MEDIA_GLOB, blockMedia)] /\
  Routing.onRoute routes request = Routing.Continued /\
  Routing.onRoute (rev routes) request = Routing.Aborted.
Proof. cbv zeta. repeat split. Qed.

(** The rest of the policy holds: a request to a host whose name contains
    [doubleclick.net] is aborted. *)
Example ad_host_aborted :
  let x := run (initializeBrowser sample_runtime) (boot plain_site globals0) in
  Routing.onRoute (Routing.routes_of (ContextH 1) (events x))
                  (mkSubRequest "https://ad.doubleclick.net/pixel.js")
  = Routing.Aborted.
Proof. reflexivity. Qed.

(* ------------------------------------------------------------------ *)
(** ** C3: single-flight initialization *)

(** *** The discipline is closed under sequencing *)

Lemma follows_weaken : forall (R : Type) (p : Prog R), follows Idle p -> follows Free p.
Proof.
  induction p as [R a|R e|R k IH|R w k IH|R X op k IH|R X op k IH|R k IH|R c IHc k IHk];
    cbn; intros H.
  - discriminate.
  - discriminate.
  - intros g Hg. specialize (H g). now rewrite Hg in H.
  - destruct w; auto. contradiction.
  - auto.
  - destruct H as [Hl Hk]. split; [|exact Hk].
    intros Hop. specialize (Hl Hop). discriminate Hl.
  - exact H.
  - destruct H as (_ & Hc & Hk). repeat split; [discriminate|auto|auto].
Qed.

Lemma follows_after (R : Type) (p : Prog R) (m : Mode) :
  m <> Hold -> follows Idle p -> follows m p.
Proof.
  destruct m; intros Hm H; [exact H|now apply follows_weaken|now elim Hm].
Qed.

Lemma follows_bind : forall (A : Type) (p : Prog A) (m : Mode) (B : Type)
    (f : A -> Prog B),
  follows m p -> (forall a, follows Idle (f a)) -> follows m (bind p f).
Proof.
  induction p as [A a|A e|A k IH|A w k IH|A X op k IH|A X op k IH|A k IH|A c IHc k IHk];
    cbn; intros m B f Hp Hf.
  - now apply follows_after.
  - exact Hp.
  - intros g. specialize (Hp g). destruct m; auto.
  - destruct w; auto. destruct m, v; auto.
  - auto.
  - destruct Hp as [Hl Hk]. split; auto.
  - auto.
  - destruct Hp as (Hm & Hc & Hk). repeat split; auto.
Qed.

Lemma follows_try_catch : forall (A : Type) (p : Prog A) (m : Mode)
    (h : Err -> Prog A),
  follows m p -> (forall e, follows Idle (h e)) -> follows m (try_catch p h).
Proof.
  induction p as [A a|A e|A k IH|A w k IH|A X op k IH|A X op k IH|A k IH|A c IHc k IHk];
    cbn; intros m h Hp Hh.
  - exact Hp.
  - now apply follows_after.
  - intros g. specialize (Hp g). destruct m; auto.
  - destruct w; auto. destruct m, v; auto.
  - auto.
  - destruct Hp as [Hl Hk]. split; auto.
  - auto.
  - destruct Hp as (Hm & Hc & Hk). repeat split; auto.
Qed.

Lemma follows_awaited : forall (A : Type) (p : Prog A) (m : Mode),
  follows m p -> follows m (awaited p).
Proof.
  induction p as [A a|A e|A k IH|A w k IH|A X op k IH|A X op k IH|A k IH|A c IHc k IHk];
    cbn; intros m Hp.
  - now destruct m.
  - now destruct m.
  - intros g. specialize (Hp g). destruct m; auto.
  - destruct w; auto. destruct m, v; auto.
  - auto.
  - destruct Hp as [Hl Hk]. split; auto.
  - auto.
  - destruct Hp as (Hm & Hc & Hk). repeat split; auto.
Qed.

(** Checking a program that is written out: split on every answer and on
    every test, and on what a read of the flag returns. *)
Ltac disciplined :=
  repeat (cbn;
    match goal with
    | |- forall _, _ => intro
    | |- _ /\ _ => split
    | |- _ <> _ => discriminate
    | |- True => exact I
    | H : is_launch _ = true |- _ => discriminate H
    | H : ?x = true |- context [if ?x then _ else _] => rewrite H
    | H : ?x = false |- context [if ?x then _ else _] => rewrite H
    | |- context [initializationInProgress ?g] =>
        destruct (initializationInProgress g) eqn:?
    | r : Res _ |- _ => destruct r
    | |- context [match ?x with Some _ => _ | None => _ end] => destruct x
    | |- context [if ?b then _ else _] => destruct b
    | |- _ = _ => reflexivity
    | H : false = true |- _ => discriminate H
    | H : true = false |- _ => discriminate H
    end).

Section Discipline.

Variable rt : Runtime.

Lemma initializeBrowser_follows : follows Idle (initializeBrowser rt).
Proof. unfold initializeBrowser. disciplined. Qed.

Lemma shutdownBrowser_follows : follows Idle shutdownBrowser.
Proof. unfold shutdownBrowser. disciplined. Qed.

Lemma scrapePage_follows (page : Page) (u : string) (w : WaitUntil) (wal t : Z)
    (sel : option string) :
  follows Idle (scrapePage page u w wal t sel).
Proof. unfold scrapePage. disciplined. Qed.

Lemma health_readiness_follows : follows Idle (health_readiness rt).
Proof. unfold health_readiness, initializeBrowser. disciplined. Qed.

Lemma scrape_session_follows : follows Idle (scrape_session rt).
Proof.
  unfold scrape_session. cbn [follows]. intros g.
  apply follows_after; [now destruct (initializationInProgress g)|].
  destruct (_ || _ || _); [|cbn; discriminate].
  apply follows_try_catch; [|cbn; discriminate].
  apply follows_bind; [apply follows_awaited, initializeBrowser_follows|].
  intros _. disciplined.
Qed.

Lemma scrape_open_follows (body : UrlModel) : follows Idle (scrape_open rt body).
Proof.
  unfold scrape_open.
  apply follows_bind; [apply scrape_session_follows|].
  intros [r|]; disciplined.
Qed.

Lemma scrape_strategies_follows (page : Page) (u : string) (wal t : Z)
    (sel : option string) :
  follows Idle (scrape_strategies page u wal t sel).
Proof.
  unfold scrape_strategies.
  apply follows_try_catch.
  - apply follows_bind; [apply follows_awaited, scrapePage_follows|].
    intros r. cbn. discriminate.
  - intros _. apply follows_try_catch.
    + apply follows_bind; [apply follows_awaited, scrapePage_follows|].
      intros r. cbn. discriminate.
    + intros _. disciplined.
Qed.

Lemma scrape_follows (body : UrlModel) : follows Idle (scrape rt body).
Proof.
  unfold scrape.
  destruct (url body) as [u|]; [|cbn; discriminate].
  destruct (negb (JS.truthy u)); [cbn; discriminate|].
  destruct (negb (isValidUrl rt u)); [cbn; discriminate|].
  apply follows_bind; [apply scrape_open_follows|].
  intros [r|page]; [cbn; discriminate|].
  apply follows_bind; [apply scrape_strategies_follows|].
  intros [r|result]; [cbn; discriminate|].
  unfold scrape_answer. disciplined.
Qed.

(** Everything the event loop starts follows the discipline. *)
Lemma entry_follows (a : Activity) : follows Idle (entry rt a).
Proof.
  destruct a as [| | |body|]; unfold entry;
    (apply follows_bind; [|intros ?; cbn; discriminate]).
  - apply follows_awaited, initializeBrowser_follows.
  - cbn. discriminate.
  - apply health_readiness_follows.
  - apply scrape_follows.
  - apply follows_awaited, shutdownBrowser_follows.
Qed.

End Discipline.

(** *** The invariant of the event loop *)

Lemma holders_app (a b : list Mode) : holders (a ++ b) = holders a + holders b.
Proof.
  induction a as [|m a IH]; cbn; [reflexivity|]. destruct m; cbn; now rewrite IH.
Qed.




Section SingleFlight.

Variable rt : Runtime.
Variable E : Engine.

Lemma start_spawn (R : Type) (c : Prog unit) (k : Prog R) (s : St E) :
  start (Spawn c k) s = start k (start c s).
Proof.
  unfold start. cbn.
  destruct (advance c s) as [[bc s1] t1]. destruct (park bc s1) as [s2 t2]. cbn.
  now destruct (advance k s2) as [[b s3] t3].
Qed.

Lemma start_sync (R X : Type) (op : Op X) (k : Res X -> Prog R) (s : St E) :
  start (Sync op k) s =
  let (r, w') := answer E op (world s) in
  start (k r) (mkSt (glob s) w' (parked s)).
Proof.
  unfold start. cbn. destruct (answer E op (world s)) as [r w'].
  now destruct (advance (k r) _) as [[b s'] t].
Qed.







End SingleFlight.



(* ------------------------------------------------------------------ *)
(** * Further properties of the code *)

Lemma collect_app (A : Type) (f : Event -> option A) (a b : list Event) :
  collect f (a ++ b) = collect f a ++ collect f b.
Proof.
  induction a as [|ev a IH]; cbn; [reflexivity|].
  destruct (f ev); cbn; now rewrite IH.
Qed.

(** Symbolic execution that splits on the answers of the engine and on
    the media setting only. *)
Ltac exec_calls :=
  repeat (cbn;
    match goal with
    | |- context [answer ?E ?op ?w] => destruct (answer E op w) as [[?|?] ?]
    | |- context [BLOCK_MEDIA ?rt] => destruct (BLOCK_MEDIA rt)
    end); cbn.

(** ** [initializeBrowser] *)

(** X1.  [initializeBrowser] never throws and never rejects, whatever the
    engine does: a run of it ends normally, leaves no call behind, and
    leaves the flag [initializationInProgress] as it found it. *)
Theorem initializeBrowser_never_rejects (rt : Runtime) (E : Engine) (s : St E) :
  let x := run (initializeBrowser rt) s in
  outcome x = inl tt /\
  initializationInProgress (glob (final x)) = initializationInProgress (glob s) /\
  parked (final x) = parked s.
Proof.
  destruct s as [[b c i e p] w q]. cbv zeta. unfold initializeBrowser.
  exec; repeat split.
Qed.

(** X2.  After an initialization that was not skipped, the session is
    ready exactly when no error is recorded.  If no call was rejected
    the session is ready; if one was, it was the last call made, its
    error is the one recorded, and the session is not ready, also when
    it was ready before. *)
Theorem initialization_verdict (rt : Runtime) (E : Engine) (s : St E) :
  initializationInProgress (glob s) = false ->
  let x := run (initializeBrowser rt) s in
  match browserInitError (glob (final x)) with
  | None =>
      browserInitialized (glob (final x)) = true /\
      collect rejected (events x) = []
  | Some e =>
      browserInitialized (glob (final x)) = false /\
      collect rejected (events x) = [e] /\
      rejected (last (events x) (Unhandled "")) = Some e
  end.
Proof.
  destruct s as [[b c i e p] w q]. cbn [glob initializationInProgress].
  intros ->. cbv zeta. unfold initializeBrowser.
  exec_calls; repeat split.
Qed.

Lemma initialization_verdict_witness :
  let x := run (initializeBrowser sample_runtime) (boot broken_site ready) in
  browserInitError (glob (final x)) = Some "Failed to launch chromium" /\
  browserInitialized (glob (final x)) = false.
Proof.
  pose proof (@initialization_verdict sample_runtime (site_engine broken_site)
                (boot broken_site ready) eq_refl) as H.
  cbv zeta in H. vm_compute in H. destruct H as [H _].
  split; [reflexivity|exact H].
Defined.

(** X3.  An initialization that leaves the session ready made these calls
    and no others, in this order: the launch with the fixed options, the
    user agent, the context of the new browser with that user agent, the
    media route on the new context if media blocking is on, the catch-all
    route on the new context.  Both handles are the ones the engine
    returned, no error is recorded and the flag is clear. *)
Theorem initialization_success (rt : Runtime) (E : Engine) (s s' : St E)
    (tr : list Event) :
  initializationInProgress (glob s) = false ->
  run (initializeBrowser rt) s = (inl tt, s', tr) ->
  browserInitialized (glob s') = true ->
  exists b ua c,
    tr = [Called (Launch launchOptions) (inl b);
          Called NewUserAgent (inl ua);
          Called (NewContext b (contextOptions rt ua)) (inl c)]
         ++ (if BLOCK_MEDIA rt
             then [Called (Route c MEDIA_GLOB blockMedia) (inl tt)]
             else [])
         ++ [Called (Route c ALL_GLOB (blockAds rt)) (inl tt)] /\
    glob s' = mkGlobals (Some b) (Some c) true None false.
Proof.
  destruct s as [[b c i e p] w q]. cbn [glob initializationInProgress].
  intros ->. unfold initializeBrowser.
  repeat (cbn;
    match goal with
    | |- context [answer ?E ?op ?w] => destruct (answer E op w) as [[?|?] ?]
    | |- context [if ?b then _ else _] => destruct b eqn:?
    | u : unit |- _ => destruct u
    end); cbn;
  intros H; inversion H; subst; clear H; cbn; intros Hi; try discriminate Hi;
  eexists; eexists; eexists; split; reflexivity.
Qed.

Lemma initialization_success_witness :
  let x := run (initializeBrowser sample_runtime) (boot plain_site globals0) in
  exists b ua c,
    events x
    = [Called (Launch launchOptions) (inl b);
       Called NewUserAgent (inl ua);
       Called (NewContext b (contextOptions sample_runtime ua)) (inl c)]
      ++ (if BLOCK_MEDIA sample_runtime
          then [Called (Route c MEDIA_GLOB blockMedia) (inl tt)]
          else [])
      ++ [Called (Route c ALL_GLOB (blockAds sample_runtime)) (inl tt)] /\
    glob (final x) = mkGlobals (Some b) (Some c) true None false.
Proof.
  cbv zeta.
  apply (@initialization_success sample_runtime (site_engine plain_site)
           (boot plain_site globals0)).
  - reflexivity.
  - vm_compute. reflexivity.
  - vm_compute. reflexivity.
Defined.

(** ** Configuration *)

Ltac by_cases_on_char c :=
  destruct c as [[] [] [] [] [] [] [] []];
  vm_compute; split; intros H;
  try reflexivity; try (now left); try (now right); try discriminate H;
  destruct H as [H|H]; discriminate H.

Lemma upper_char_T (c : ascii) :
  JS.upper_char c = "T"%char <-> (c = "t"%char \/ c = "T"%char).
Proof. by_cases_on_char c. Qed.

Lemma upper_char_R (c : ascii) :
  JS.upper_char c = "R"%char <-> (c = "r"%char \/ c = "R"%char).
Proof. by_cases_on_char c. Qed.

Lemma upper_char_U (c : ascii) :
  JS.upper_char c = "U"%char <-> (c = "u"%char \/ c = "U"%char).
Proof. by_cases_on_char c. Qed.

Lemma upper_char_E (c : ascii) :
  JS.upper_char c = "E"%char <-> (c = "e"%char \/ c = "E"%char).
Proof. by_cases_on_char c. Qed.

(** X4.  Media blocking is on exactly when the variable [BLOCK_MEDIA] is
    the word "true" in any mix of upper and lower case: nothing else
    switches it on, and an unset or empty variable leaves it off. *)
Theorem BLOCK_MEDIA_spelling (rt : Runtime) :
  BLOCK_MEDIA rt = true <->
  exists a b c d,
    env_BLOCK_MEDIA (env rt) = Some (String a (String b (String c (String d "")))) /\
    (a = "t"%char \/ a = "T"%char) /\
    (b = "r"%char \/ b = "R"%char) /\
    (c = "u"%char \/ c = "U"%char) /\
    (d = "e"%char \/ d = "E"%char).
Proof.
  unfold BLOCK_MEDIA, JS.or_else, JS.truthy.
  destruct (env_BLOCK_MEDIA (env rt)) as [v|].
  2:{ split; [discriminate|]. intros (a & b & c & d & H & _). discriminate H. }
  destruct v as [|a [|b [|c [|d [|x v]]]]];
    cbn [JS.toUpperCase JS.map_chars String.eqb negb andb];
    repeat match goal with
           | |- context [Ascii.eqb ?x ?y] => destruct (Ascii.eqb_spec x y)
           end;
    (split;
     [intros H; try discriminate H
     |intros (a' & b' & c' & d' & H & Ha & Hb & Hc & Hd); try discriminate H;
      try reflexivity]).
  - exists a, b, c, d. split; [reflexivity|].
    rewrite <- upper_char_T, <- upper_char_R, <- upper_char_U, <- upper_char_E. auto.
  - inversion H; subst. apply upper_char_E in Hd. contradiction.
  - inversion H; subst. apply upper_char_U in Hc. contradiction.
  - inversion H; subst. apply upper_char_R in Hb. contradiction.
  - inversion H; subst. apply upper_char_T in Ha. contradiction.
Qed.

(** X5.  The proxy of the browser context.  There is a proxy exactly when
    [PROXY_SERVER] is set and not empty, and its server is that value.
    Credentials are attached as a pair or not at all: both are attached
    when [PROXY_USERNAME] and [PROXY_PASSWORD] are both set and not empty,
    and neither is attached otherwise. *)
Theorem proxy_options (rt : Runtime) (ua : string) :
  let nonempty v s := v = Some s /\ s <> "" in
  match proxy (contextOptions rt ua) with
  | None =>
      forall s, ~ nonempty (env_PROXY_SERVER (env rt)) s
  | Some p =>
      nonempty (env_PROXY_SERVER (env rt)) (server p) /\
      match username p, password p with
      | Some u, Some pw =>
          nonempty (env_PROXY_USERNAME (env rt)) u /\
          nonempty (env_PROXY_PASSWORD (env rt)) pw
      | None, None =>
          (forall u, ~ nonempty (env_PROXY_USERNAME (env rt)) u) \/
          (forall pw, ~ nonempty (env_PROXY_PASSWORD (env rt)) pw)
      | _, _ => False
      end
  end.
Proof.
  assert (Hnull : forall v,
             match JS.or_null v with
             | Some s => v = Some s /\ s <> ""
             | None => forall s, ~ (v = Some s /\ s <> "")
             end).
  { intros [s|]; cbn; [|intros s [H _]; discriminate H].
    destruct (JS.truthy s) eqn:Ht.
    - split; [reflexivity|]. intros ->. discriminate Ht.
    - apply truthy_false in Ht. subst. intros s [H Hs]. inversion H. now subst. }
  cbv zeta. unfold contextOptions, PROXY_SERVER, PROXY_USERNAME, PROXY_PASSWORD.
  cbn [proxy].
  pose proof (Hnull (env_PROXY_SERVER (env rt))) as Hs.
  pose proof (Hnull (env_PROXY_USERNAME (env rt))) as Hu.
  pose proof (Hnull (env_PROXY_PASSWORD (env rt))) as Hp.
  destruct (JS.or_null (env_PROXY_SERVER (env rt))) as [s|]; [|exact Hs].
  destruct (JS.or_null (env_PROXY_USERNAME (env rt))) as [u|];
    [destruct (JS.or_null (env_PROXY_PASSWORD (env rt))) as [pw|]|];
    cbn; auto.
Qed.

(** ** The catch-all route handler *)

(** X6.  The handler of the catch-all route aborts a request exactly when
    the host name of its URL contains a deny-listed domain somewhere in
    it, continues it exactly when the URL parses and the host name
    contains none, and throws exactly when the URL does not parse. *)
Theorem blockAds_decision (rt : Runtime) (request : SubRequest) :
  let listed host :=
    exists domain before after,
      In domain AD_SERVING_DOMAINS /\ host = (before ++ domain ++ after)%string in
  (blockAds rt request = RouteAbort <->
   exists parsed, URL_parse rt (req_url request) = Some parsed /\
                  listed (hostname parsed)) /\
  (blockAds rt request = RouteContinue <->
   exists parsed, URL_parse rt (req_url request) = Some parsed /\
                  ~ listed (hostname parsed)) /\
  (blockAds rt request = RouteThrow InvalidURL <->
   URL_parse rt (req_url request) = None).
Proof.
  cbv zeta. unfold blockAds.
  destruct (URL_parse rt (req_url request)) as [parsed|].
  2:{ repeat split; try discriminate; intros (p & H & _); discriminate H. }
  assert (Hl : existsb (fun domain => JS.includes domain (hostname parsed))
                       AD_SERVING_DOMAINS = true <->
               exists domain before after,
                 In domain AD_SERVING_DOMAINS /\
                 hostname parsed = (before ++ domain ++ after)%string).
  { rewrite existsb_exists. split.
    - intros (domain & Hin & Hinc). apply includes_spec in Hinc as (b & a & Heq).
      now exists domain, b, a.
    - intros (domain & b & a & Hin & Heq). exists domain. split; [exact Hin|].
      apply includes_spec. now exists b, a. }
  destruct (existsb _ AD_SERVING_DOMAINS) eqn:Hex.
  - assert (Hy := proj1 Hl eq_refl).
    repeat split; try discriminate.
    + intros _. now exists parsed.
    + intros (p & Hp & Hn). inversion Hp; subst. now elim Hn.
  - assert (Hn : ~ exists domain before after,
                     In domain AD_SERVING_DOMAINS /\
                     hostname parsed = (before ++ domain ++ after)%string).
    { intros H. apply Hl in H. discriminate H. }
    repeat split; try discriminate.
    + intros (p & Hp & Hy). inversion Hp; subst. now elim Hn.
    + intros _. now exists parsed.
Qed.

(** ** Validation comes first *)

(** X7.  A request whose [url] is absent, empty or not parsed by the
    platform is answered 400 before anything else happens: no call is
    made to the engine, no variable is changed and no initialization is
    started, also when the session is down. *)
Theorem validation_first (rt : Runtime) (E : Engine) (body : UrlModel) (s : St E) :
  (url body = None \/
   exists u, url body = Some u /\ (u = "" \/ URL_parse rt u = None)) ->
  exists r,
    run (scrape rt body) s = (inl r, s, []) /\ http_status r = 400%Z.
Proof.
  intros [Hu|(u & Hu & [->|Hp])]; unfold scrape; rewrite Hu.
  - now exists urlRequired.
  - now exists urlRequired.
  - destruct (JS.truthy u); cbn.
    + unfold isValidUrl. rewrite Hp. now exists invalidUrl.
    + now exists urlRequired.
Qed.

Lemma validation_first_witness :
  exists r,
    run (scrape sample_runtime (request "not a url")) (boot broken_site globals0)
    = (inl r, boot broken_site globals0, []) /\ http_status r = 400%Z.
Proof.
  apply validation_first. right. exists "not a url". split; [reflexivity|].
  right. reflexivity.
Defined.

(** ** One attempt, step by step *)

(** Symbolic execution that splits on the answers of the engine and on
    the variables the program tests. *)
Ltac exec_vars :=
  repeat (cbn;
    match goal with
    | |- context [answer ?E ?op ?w] => destruct (answer E op w) as [[?|?] ?]
    | |- context [BLOCK_MEDIA ?rt] => destruct (BLOCK_MEDIA rt)
    | |- context [raw_content_type ?h] => destruct (raw_content_type h)
    | |- context [match ?x with _ => _ end] => is_var x; destruct x
    | |- context [negb ?x] => is_var x; destruct x
    | |- context [if ?x then _ else _] => is_var x; destruct x
    end); cbn.

(** X8.  The optional steps of an attempt.  The pause is made only when
    [waitAfterLoad] is positive, the selector wait only when a selector
    that is not empty was given, with the timeout of the navigation, and
    neither is made twice.  An attempt that completes has made each step
    it was asked to make. *)
Theorem optional_steps (E : Engine) (page : Page) (u : string) (w : WaitUntil)
    (wal t : Z) (sel : option string) (s : St E) :
  let x := run (scrapePage page u w wal t sel) s in
  ((wal <= 0)%Z -> collect pause (events x) = []) /\
  (JS.truthy_opt sel = false -> collect selector_wait (events x) = []) /\
  (collect pause (events x) = [] \/ collect pause (events x) = [(page, wal)]) /\
  (collect selector_wait (events x) = [] \/
   exists sl, sel = Some sl /\ collect selector_wait (events x) = [(page, sl, t)]) /\
  (forall r, outcome x = inl r ->
     ((0 < wal)%Z -> collect pause (events x) = [(page, wal)]) /\
     (forall sl, sel = Some sl -> sl <> "" ->
                 collect selector_wait (events x) = [(page, sl, t)])).
Proof.
  cbv zeta. unfold scrapePage.
  destruct (wal >? 0)%Z eqn:Hw;
    [apply Z.gtb_lt in Hw|rewrite Z.gtb_ltb in Hw; apply Z.ltb_ge in Hw];
    (destruct sel as [sl|]; [destruct (JS.truthy sl) eqn:Hs|]);
    exec_vars;
    repeat match goal with
           | |- _ /\ _ => split
           | |- forall _, _ => intro
           end;
    try reflexivity; try lia; try discriminate;
    try (now left); try (now right; eexists; split; reflexivity);
    try (now right);
    try match goal with
        | H : Some _ = Some _ |- _ => inversion H; subst; try reflexivity
        end;
    try congruence;
    try (apply truthy_false in Hs; congruence).
Qed.

(** X9.  How an attempt fails.  An attempt that completes had no call
    rejected.  One that fails stopped at the first rejected call, which is
    the last call it made; it fails with the error of that call, except
    that a rejected selector wait is reported as the selector error. *)
Theorem attempt_failure (E : Engine) (page : Page) (u : string) (w : WaitUntil)
    (wal t : Z) (sel : option string) (s : St E) :
  let x := run (scrapePage page u w wal t sel) s in
  match outcome x with
  | inl _ => collect rejected (events x) = []
  | inr e =>
      exists e',
        rejected (last (events x) no_event) = Some e' /\
        collect rejected (removelast (events x)) = [] /\
        e = match selector_wait (last (events x) no_event) with
            | Some _ => "Required selector not found"
            | None => e'
            end
  end.
Proof.
  cbv zeta. unfold scrapePage.
  destruct (wal >? 0)%Z;
    (destruct sel as [sl|]; [destruct (JS.truthy sl)|]);
    exec_vars; try reflexivity; eexists; repeat split.
Qed.

(** X10.  What a completed attempt reports.  Its status is the status of
    the response of the navigation and its headers are what the response
    gave as its headers; when the navigation gave no response, status and
    headers are absent and the attempt ended with reading the document.
    An attempt leaves the module-level variables and the parked calls as
    they were. *)
Theorem attempt_metadata (E : Engine) (page : Page) (u : string) (w : WaitUntil)
    (wal t : Z) (sel : option string) (s s' : St E) (result : ScrapeResult)
    (tr : list Event) :
  run (scrapePage page u w wal t sel) s = (inl result, s', tr) ->
  glob s' = glob s /\ parked s' = parked s /\
  exists response,
    In (Called (Goto page u w t) (inl response)) tr /\
    match response with
    | Some r =>
        status result = Some (resp_status r) /\
        exists hs, result_headers result = Some hs /\
                   In (Called (AllHeaders r) (inl hs)) tr
    | None =>
        status result = None /\ result_headers result = None /\
        last tr no_event = Called (Content page) (inl (content result))
    end.
Proof.
  unfold scrapePage.
  destruct (wal >? 0)%Z;
    (destruct sel as [sl|]; [destruct (JS.truthy sl)|]);
    exec_vars; intros H; inversion H; subst; clear H;
    (split; [reflexivity|]); (split; [reflexivity|]);
    eexists; (split; [find_in|]); cbn;
    repeat split; eexists; (split; [reflexivity|find_in]).
Qed.

Lemma attempt_metadata_witness :
  let x := run (scrapePage (PageH 0) "https://example.com/" Load 0 15000 None)
               (boot missing_site ready) in
  glob (final x) = ready /\
  exists result, outcome x = inl result /\ status result = Some 404%Z.
Proof.
  cbv zeta.
  destruct (@attempt_metadata (site_engine missing_site) (PageH 0)
              "https://example.com/" Load 0%Z 15000%Z None
              (boot missing_site ready) _ _ _ eq_refl) as (Hg & _ & _).
  split; [exact Hg|]. eexists. split; reflexivity.
Defined.

(** X11.  Which header counts as [content-type] does not depend on the
    letter case of header names: two header lists that agree entry by
    entry up to the case of the names are treated alike. *)
Theorem content_type_name_case (hs hs' : Headers) :
  Forall2 (fun a b => JS.toLowerCase (fst a) = JS.toLowerCase (fst b) /\
                      snd a = snd b) hs hs' ->
  raw_content_type hs = raw_content_type hs'.
Proof.
  unfold raw_content_type.
  induction 1 as [|a b hs hs' [Hn Hv] _ IH]; [reflexivity|].
  cbn [find]. rewrite Hn.
  destruct (JS.toLowerCase (fst b) =? "content-type")%string; [|exact IH].
  now rewrite Hv.
Qed.

Lemma content_type_name_case_witness :
  raw_content_type [("X-Id", "7"); ("CONTENT-TYPE", "application/json")]
  = raw_content_type [("x-id", "7"); ("Content-Type", "application/json")].
Proof.
  apply content_type_name_case.
  repeat constructor.
Defined.

Lemma optional_steps_witness :
  let x := run (scrapePage (PageH 0) "https://example.com/" Load (-5) 15000 (Some ""))
               (boot plain_site ready) in
  collect pause (events x) = [] /\ collect selector_wait (events x) = [].
Proof.
  cbv zeta.
  pose proof (@optional_steps (site_engine plain_site) (PageH 0)
                "https://example.com/" Load (-5)%Z 15000%Z (Some "")
                (boot plain_site ready)) as H.
  cbv zeta in H. destruct H as (Hp & Hs & _).
  split; [apply Hp; lia|apply Hs; reflexivity].
Defined.

(** ** The pages of a request *)

Section Pages.

Variable rt : Runtime.
Variable E : Engine.

Lemma scrapePage_pages (page : Page) (u : string) (w : WaitUntil) (wal t : Z)
    (sel : option string) (s : St E) :
  let x := run (scrapePage page u w wal t sel) s in
  collect page_opened (events x) = [] /\ collect page_closed (events x) = [].
Proof.
  cbv zeta. unfold scrapePage.
  destruct (wal >? 0)%Z;
    (destruct sel as [sl|]; [destruct (JS.truthy sl)|]);
    exec_vars; split; reflexivity.
Qed.

Lemma scrape_open_pages (body : UrlModel) (s : St E) :
  let o := run (scrape_open rt body) s in
  collect page_closed (events o) = [] /\
  match outcome o with
  | inl (inr page) => collect page_opened (events o) = [page]
  | inl (inl _) => collect page_opened (events o) = []
  | inr _ => length (collect page_opened (events o)) <= 1
  end.
Proof.
  destruct s as [[b c i e p] w q]. destruct body as [bu bw bt bh bs].
  cbv zeta. unfold scrape_open, scrape_session, initializeBrowser.
  exec_vars; split; try reflexivity; cbn; lia.
Qed.

Lemma scrape_strategies_pages (page : Page) (u : string) (wal t : Z)
    (sel : option string) (s : St E) :
  let f := run (scrape_strategies page u wal t sel) s in
  collect page_opened (events f) = [] /\
  match outcome f with
  | inl (inr _) => collect page_closed (events f) = []
  | _ => collect page_closed (events f) = [page]
  end.
Proof.
  cbv zeta. rewrite scrape_strategies_run.
  destruct (scrapePage_pages page u Load wal t sel s) as [O1 C1].
  destruct (run (scrapePage page u Load wal t sel) s) as [[[r1|e1] s1] t1];
    cbn [outcome final events fst snd] in *; [now split|].
  destruct (scrapePage_pages page u NetworkIdle wal t sel s1) as [O2 C2].
  destruct (run (scrapePage page u NetworkIdle wal t sel) s1) as [[[r2|e2] s2] t2];
    cbn [outcome final events fst snd] in *.
  - rewrite !collect_app, O1, O2, C1, C2. now split.
  - assert (Hc : collect page_opened (events (run (await (PageClose page)) s2)) = [] /\
                 collect page_closed (events (run (await (PageClose page)) s2)) = [page]).
    { cbn. now destruct (answer E (PageClose page) (world s2)) as [[[]|e] w']. }
    destruct Hc as [Oc Cc].
    destruct (run (await (PageClose page)) s2) as [[[[]|e3] s3] t3];
      cbn [outcome final events fst snd] in *;
      rewrite !collect_app, O1, O2, C1, C2, Oc, Cc; now split.
Qed.

Lemma scrape_answer_pages (page : Page) (result : ScrapeResult) (s : St E) :
  let c := run (scrape_answer rt page result) s in
  collect page_opened (events c) = [] /\ collect page_closed (events c) = [page].
Proof.
  cbv zeta. unfold scrape_answer. cbn.
  now destruct (answer E (PageClose page) (world s)) as [[[]|e] w'].
Qed.

End Pages.

(** X12.  The pages of a request.  A request acquires at most one page.
    It calls [page.close()] at most once, and only on the page it
    acquired.  Whenever the handler sends an answer, whichever it is,
    every page the request acquired has been closed: a page is left open
    only when the handler itself ends with a rejection. *)
Theorem page_discipline (rt : Runtime) (E : Engine) (body : UrlModel) (s : St E) :
  let x := run (scrape rt body) s in
  length (collect page_opened (events x)) <= 1 /\
  (collect page_closed (events x) = [] \/
   collect page_closed (events x) = collect page_opened (events x)) /\
  (forall r, outcome x = inl r ->
             collect page_closed (events x) = collect page_opened (events x)).
Proof.
  cbv zeta.
  destruct (url body) as [u|] eqn:Hu;
    [|unfold scrape; rewrite Hu; cbn; auto].
  destruct (JS.truthy u) eqn:Ht;
    [|unfold scrape; rewrite Hu, Ht; cbn; auto].
  destruct (isValidUrl rt u) eqn:Hv;
    [|unfold scrape; rewrite Hu, Ht, Hv; cbn; auto].
  rewrite (scrape_run rt body s Hu Ht Hv). cbv zeta.
  destruct (scrape_open_pages rt body s) as [C0 O0].
  destruct (run (scrape_open rt body) s) as [[[[r0|page]|e0] s0] t0];
    cbn [outcome final events fst snd] in *.
  - rewrite C0, O0. cbn. auto.
  - destruct (scrape_strategies_pages page u (wait_of body) (timeout_of body)
                (check_selector body) s0) as [O1 C1].
    destruct (run (scrape_strategies page u _ _ _) s0) as [[[[r1|result]|e1] s1] t1];
      cbn [outcome final events fst snd] in *.
    + rewrite !collect_app, C0, O0, O1, C1. cbn. auto.
    + destruct (scrape_answer_pages rt page result s1) as [O2 C2].
      destruct (run (scrape_answer rt page result) s1) as [[o2 s2] t2];
        cbn [outcome final events fst snd] in *.
      rewrite !collect_app, C0, O0, O1, C1, O2, C2. cbn. auto.
    + rewrite !collect_app, C0, O0, O1, C1. cbn.
      repeat split; auto.
  - rewrite C0. repeat split; auto. intros r H. discriminate H.
Qed.

Lemma page_discipline_witness :
  let x := run (scrape sample_runtime (request "https://example.com/"))
               (boot slow_site ready) in
  collect page_closed (events x) = [PageH 0] /\
  collect page_opened (events x) = [PageH 0].
Proof.
  cbv zeta.
  pose proof (@page_discipline sample_runtime (site_engine slow_site)
                (request "https://example.com/") (boot slow_site ready)) as H.
  cbv zeta in H. destruct H as (_ & _ & H).
  rewrite (H _ eq_refl). split; reflexivity.
Defined.

(** ** The readiness probe and shutdown *)

(** X13.  The readiness probe reports the state of the session and never
    waits for the engine.  It answers 200 exactly when the session is
    ready and 503 otherwise.  A session that is ready, failed or
    initializing is reported as such and left as it is, with no call made;
    a failed one with its recorded reason.  For a session that is down
    with no error recorded the probe answers that initialization has
    started, having issued the launch without waiting for it, and the
    session is then initializing. *)
Theorem readiness_reports_health (rt : Runtime) (E : Engine) (s : St E) :
  let x := run (health_readiness rt) s in
  let not_ready := ("status", JStr "not ready") in
  exists r,
    outcome x = inl r /\
    (http_status r = 200%Z <-> browserInitialized (glob s) = true) /\
    (http_status r = 200%Z \/ http_status r = 503%Z) /\
    forallb (fun ev => negb (answered ev)) (events x) = true /\
    match health (glob s) with
    | Ready => r = mkHttp 200 [("status", JStr "ready")] /\ final x = s /\ events x = []
    | Failed e =>
        r = mkHttp 503 [not_ready; ("error", JStr e)] /\ final x = s /\ events x = []
    | Initializing =>
        r = mkHttp 503 [not_ready; ("message", JStr "Browser initialization in progress")]
        /\ final x = s /\ events x = []
    | Uninitialized =>
        r = mkHttp 503 [not_ready; ("message", JStr "Browser initialization started")]
        /\ events x = [Issued (Launch launchOptions)]
        /\ health (glob (final x)) = Initializing
    end.
Proof.
  destruct s as [[b c i e p] w q]. cbv zeta.
  unfold health_readiness, initializeBrowser, health. cbn.
  destruct i; [eexists; repeat split; auto; discriminate|].
  destruct e as [e|]; [eexists; repeat split; auto; discriminate|].
  destruct p; cbn; eexists; repeat split; auto; discriminate.
Qed.

(** X14.  [shutdownBrowser] changes no module-level variable: the handles
    stay set and a session that was ready still counts as ready.  It
    launches nothing, makes at most two calls, and on a session that was
    never initialized it makes none and succeeds. *)
Theorem shutdown_leaves_state (E : Engine) (s : St E) :
  let x := run shutdownBrowser s in
  glob (final x) = glob s /\
  parked (final x) = parked s /\
  launch_count (events x) = 0 /\
  length (events x) <= 2 /\
  (context (glob s) = None -> browser (glob s) = None -> x = (inl tt, s, [])).
Proof.
  destruct s as [[b c i e p] w q]. cbv zeta. unfold shutdownBrowser.
  destruct b, c; exec_vars; repeat split; cbn; try lia; intros; discriminate.
Qed.

Lemma shutdown_leaves_state_witness :
  run shutdownBrowser (boot plain_site globals0)
  = (inl tt, boot plain_site globals0, []).
Proof.
  exact (proj2 (proj2 (proj2 (proj2
           (@shutdown_leaves_state (site_engine plain_site) (boot plain_site globals0)))))
           eq_refl eq_refl).
Defined.

(** X15.  What the readiness probe says right after an initialization.
    If the initialization recorded an error, the probe answers 503 with
    that error; if it recorded none, the probe answers 200.  Either way
    the probe makes no call and starts nothing. *)
Theorem readiness_after_initialization (rt : Runtime) (E : Engine) (s : St E) :
  initializationInProgress (glob s) = false ->
  let x := run (initializeBrowser rt) s in
  run (health_readiness rt) (final x)
  = (inl match browserInitError (glob (final x)) with
         | Some e => mkHttp 503 [("status", JStr "not ready"); ("error", JStr e)]
         | None => mkHttp 200 [("status", JStr "ready")]
         end,
     final x, []).
Proof.
  destruct s as [[b c i e p] w q]. cbn [glob initializationInProgress].
  intros ->. cbv zeta. unfold initializeBrowser, health_readiness.
  exec_calls; reflexivity.
Qed.

Lemma readiness_after_initialization_witness :
  outcome (run (health_readiness sample_runtime)
               (final (run (initializeBrowser sample_runtime)
                           (boot broken_site globals0))))
  = inl (mkHttp 503 [("status", JStr "not ready");
                     ("error", JStr "Failed to launch chromium")]).
Proof.
  rewrite (@readiness_after_initialization sample_runtime (site_engine broken_site)
             (boot broken_site globals0) eq_refl).
  reflexivity.
Defined.

(* ------------------------------------------------------------------ *)
(** ** The health variables over the event loop *)

(** *** The session discipline is closed under sequencing *)

Lemma tidy_bind : forall (A : Type) (p : Prog A) (d : Stage) (kb kc : bool)
    (B : Type) (f : A -> Prog B),
  tidy d kb kc p -> (forall a kb' kc', tidy Outside kb' kc' (f a)) ->
  tidy d kb kc (bind p f).
Proof.
  induction p as [A a|A e|A k IH|A w k IH|A X op k IH|A X op k IH|A k IH|A c IHc k IHk];
    cbn; intros d kb kc B f Hp Hf; auto.
  - subst d. apply Hf.
  - destruct w as [b|c|[]|[e|]|[]]; auto.
    + destruct Hp as (Hd & H1 & H2 & H). repeat split; auto.
    + destruct d; try contradiction; auto.
    + destruct Hp as [Hd H]. split; auto.
    + destruct Hp as [Hd H]. split; auto.
    + destruct Hp as [Hd H]. split; auto.
    + destruct Hp as [Hd H]. split; auto.
  - destruct Hp as [Hd H]. split; auto.
  - destruct Hp as [Hd H]. split; auto.
  - destruct Hp as (Hd & H1 & H2). repeat split; auto.
Qed.

Lemma tidy_try_catch : forall (A : Type) (p : Prog A) (d : Stage) (kb kc : bool)
    (h : Err -> Prog A),
  tidy d kb kc p -> (forall e kb' kc', tidy Outside kb' kc' (h e)) ->
  tidy d kb kc (try_catch p h).
Proof.
  induction p as [A a|A e|A k IH|A w k IH|A X op k IH|A X op k IH|A k IH|A c IHc k IHk];
    cbn; intros d kb kc h Hp Hh; auto.
  - subst d. apply Hh.
  - destruct w as [b|c|[]|[e|]|[]]; auto.
    + destruct Hp as (Hd & H1 & H2 & H). repeat split; auto.
    + destruct d; try contradiction; auto.
    + destruct Hp as [Hd H]. split; auto.
    + destruct Hp as [Hd H]. split; auto.
    + destruct Hp as [Hd H]. split; auto.
    + destruct Hp as [Hd H]. split; auto.
  - destruct Hp as [Hd H]. split; auto.
  - destruct Hp as [Hd H]. split; auto.
  - destruct Hp as (Hd & H1 & H2). repeat split; auto.
Qed.

Lemma tidy_awaited : forall (A : Type) (p : Prog A) (d : Stage) (kb kc : bool),
  tidy d kb kc p -> tidy d kb kc (awaited p).
Proof.
  induction p as [A a|A e|A k IH|A w k IH|A X op k IH|A X op k IH|A k IH|A c IHc k IHk];
    cbn; intros d kb kc Hp; auto.
  - destruct w as [b|c|[]|[e|]|[]]; auto.
    + destruct Hp as (Hd & H1 & H2 & H). repeat split; auto.
    + destruct d; try contradiction; auto.
    + destruct Hp as [Hd H]. split; auto.
    + destruct Hp as [Hd H]. split; auto.
    + destruct Hp as [Hd H]. split; auto.
    + destruct Hp as [Hd H]. split; auto.
  - destruct Hp as [Hd H]. split; auto.
  - destruct Hp as [Hd H]. split; auto.
  - destruct Hp as (Hd & H1 & H2). repeat split; auto.
Qed.

(** Checking a program that is written out against the session
    discipline. *)
Ltac tidied :=
  repeat (cbn;
    match goal with
    | |- forall _, _ => intro
    | |- _ /\ _ => split
    | |- _ <> _ => discriminate
    | |- True => exact I
    | |- ?x = ?x => reflexivity
    | |- ?x = ?x \/ _ => left; reflexivity
    | |- _ \/ ?x = ?x => right; reflexivity
    | r : Res _ |- _ => destruct r
    | |- context [match ?x with Some _ => _ | None => _ end] => destruct x
    | |- context [if ?b then _ else _] => destruct b
    end).

Section Tidiness.

Variable rt : Runtime.

Lemma initializeBrowser_tidy (kb kc : bool) :
  tidy Outside kb kc (initializeBrowser rt).
Proof. unfold initializeBrowser. tidied. Qed.

Lemma shutdownBrowser_tidy (kb kc : bool) : tidy Outside kb kc shutdownBrowser.
Proof. unfold shutdownBrowser. tidied. Qed.

Lemma scrapePage_tidy (page : Page) (u : string) (w : WaitUntil) (wal t : Z)
    (sel : option string) (kb kc : bool) :
  tidy Outside kb kc (scrapePage page u w wal t sel).
Proof. unfold scrapePage. tidied. Qed.

Lemma health_readiness_tidy (kb kc : bool) :
  tidy Outside kb kc (health_readiness rt).
Proof. unfold health_readiness, initializeBrowser. tidied. Qed.

Lemma scrape_session_tidy (kb kc : bool) : tidy Outside kb kc (scrape_session rt).
Proof.
  unfold scrape_session. cbn [tidy]. intros g.
  destruct (_ || _ || _); [|reflexivity].
  apply tidy_try_catch; [|reflexivity].
  apply tidy_bind; [apply tidy_awaited, initializeBrowser_tidy|].
  intros _ kb' kc'. tidied.
Qed.

Lemma scrape_open_tidy (body : UrlModel) (kb kc : bool) :
  tidy Outside kb kc (scrape_open rt body).
Proof.
  unfold scrape_open.
  apply tidy_bind; [apply scrape_session_tidy|].
  intros [r|] kb' kc'; tidied.
Qed.

Lemma scrape_strategies_tidy (page : Page) (u : string) (wal t : Z)
    (sel : option string) (kb kc : bool) :
  tidy Outside kb kc (scrape_strategies page u wal t sel).
Proof.
  unfold scrape_strategies.
  apply tidy_try_catch.
  - apply tidy_bind; [apply tidy_awaited, scrapePage_tidy|]. reflexivity.
  - intros _ kb' kc'. apply tidy_try_catch.
    + apply tidy_bind; [apply tidy_awaited, scrapePage_tidy|]. reflexivity.
    + intros _ kb'' kc''. tidied.
Qed.

Lemma scrape_tidy (body : UrlModel) (kb kc : bool) : tidy Outside kb kc (scrape rt body).
Proof.
  unfold scrape.
  destruct (url body) as [u|]; [|reflexivity].
  destruct (negb (JS.truthy u)); [reflexivity|].
  destruct (negb (isValidUrl rt u)); [reflexivity|].
  apply tidy_bind; [apply scrape_open_tidy|].
  intros [r|page] kb' kc'; [reflexivity|].
  apply tidy_bind; [apply scrape_strategies_tidy|].
  intros [r|result] kb'' kc''; [reflexivity|].
  unfold scrape_answer. tidied.
Qed.

(** Everything the event loop starts keeps to the session discipline. *)
Lemma entry_tidy (a : Activity) (kb kc : bool) : tidy Outside kb kc (entry rt a).
Proof.
  destruct a as [| | |body|]; unfold entry;
    (apply tidy_bind; [|reflexivity]).
  - apply tidy_awaited, initializeBrowser_tidy.
  - reflexivity.
  - apply health_readiness_tidy.
  - apply scrape_tidy.
  - apply tidy_awaited, shutdownBrowser_tidy.
Qed.

End Tidiness.

(** *** The invariant *)

Lemma known_assign (w : Write) (g : Globals) (kb kc : bool) :
  known g kb kc -> known (assign w g) kb kc.
Proof.
  intros [Hb Hc]. destruct w; cbn; split; auto; discriminate.
Qed.

Lemma task_kept_assign (w : Write) (g : Globals) (ms : list Mode) (pool : list Task) :
  Forall2 (task_kept g) ms pool -> Forall2 (task_kept (assign w g)) ms pool.
Proof.
  induction 1 as [|m t ms pool [Hf (kb & kc & Ht & Hk)] _ IH]; constructor; auto.
  split; [exact Hf|]. exists kb, kc. split; [exact Ht|]. now apply known_assign.
Qed.

Section Kept.

Variable rt : Runtime.
Variable E : Engine.

(** No program ever unsets a handle. *)
Lemma advance_known : forall (R : Type) (p : Prog R) (s : St E) (kb kc : bool),
  known (glob s) kb kc -> known (glob (snd (fst (advance p s)))) kb kc.
Proof.
  induction p as [R a|R e|R k IH|R w k IH|R X op k IH|R X op k IH|R k IH|R c IHc k IHk];
    intros s kb kc Hk; cbn; auto.
  - apply IH. cbn. now apply known_assign.
  - destruct (answer E op (world s)) as [r w'].
    specialize (IH r (mkSt (glob s) w' (parked s)) kb kc Hk).
    now destruct (advance (k r) _) as [[b s'] t].
  - specialize (IHc s kb kc Hk).
    destruct (advance c s) as [[bc s1] t1]. cbn in IHc.
    assert (H2 : known (glob (fst (park bc s1))) kb kc).
    { destruct bc as [[a|e]|X op k'|k']; exact IHc. }
    destruct (park bc s1) as [s2 t2]. cbn in H2.
    specialize (IHk s2 kb kc H2).
    now destruct (advance k s2) as [[b s3] t3].
Qed.

Lemma start_known (R : Type) (p : Prog R) (s : St E) (kb kc : bool) :
  known (glob s) kb kc -> known (glob (start p s)) kb kc.
Proof.
  intros Hk. unfold start.
  pose proof (advance_known p s Hk) as H.
  destruct (advance p s) as [[b s1] t]. cbn in H.
  destruct b as [[a|e]|X op k'|k']; exact H.
Qed.

Lemma flag_count_cases (g : Globals) :
  (initializationInProgress g = true /\ flag_count g = 1) \/
  (initializationInProgress g = false /\ flag_count g = 0).
Proof. unfold flag_count. destruct (initializationInProgress g); auto. Qed.

(** A call that keeps to both disciplines, started in a state that agrees
    with its position, leaves the session in order at its next
    suspension. *)
Lemma start_kept :
  forall (R : Type) (p : Prog R) (m : Mode) (d : Stage) (kb kc : bool)
         (ms : list Mode) (s : St E),
    follows m p -> tidy d kb kc p -> agree m d ->
    Forall2 (task_kept (glob s)) ms (parked s) -> mode_holds m ms s ->
    stage_holds d (glob s) -> equipped (glob s) -> known (glob s) kb kc ->
    kept (start p s).
Proof.
  induction p as [R a|R e|R k IH|R w k IH|R X op k IH|R X op k IH|R k IH|R c IHc k IHk];
    intros m d kb kc ms s Hf Ht Ha HF Hm Hs He Hk.
  - change (start (Ret a) s) with s.
    cbn in Hf, Ht. subst d. exists ms.
    split; [exact HF|]. split; [|split; [exact Hs|exact He]].
    destruct m; [exact Hm| |now elim Hf].
    destruct Hm as [Hfl Hh]. unfold flag_count. now rewrite Hfl.
  - change (start (Throw e) s) with s.
    cbn in Hf, Ht. subst d. exists ms.
    split; [exact HF|]. split; [|split; [exact Hs|exact He]].
    destruct m; [exact Hm| |now elim Hf].
    destruct Hm as [Hfl Hh]. unfold flag_count. now rewrite Hfl.
  - change (start (GetG k) s) with (start (k (glob s)) s).
    cbn in Hf, Ht. specialize (Hf (glob s)). specialize (Ht (glob s)).
    destruct m.
    + destruct (initializationInProgress (glob s)) eqn:Hfl.
      * apply (IH _ Idle d kb kc ms);
          [exact Hf|exact Ht|exact Ha|exact HF|exact Hm|exact Hs|exact He|exact Hk].
      * apply (IH _ Free d kb kc ms);
          [exact Hf|exact Ht|exact Ha|exact HF| |exact Hs|exact He|exact Hk].
        split; [exact Hfl|]. cbn in Hm. unfold flag_count in Hm. now rewrite Hfl in Hm.
    + apply (IH _ Free d kb kc ms);
        [apply Hf, Hm|exact Ht|exact Ha|exact HF|exact Hm|exact Hs|exact He|exact Hk].
    + apply (IH _ Hold d kb kc ms);
        [apply Hf, Hm|exact Ht|exact Ha|exact HF|exact Hm|exact Hs|exact He|exact Hk].
  - change (start (SetG w k) s)
      with (start k (mkSt (assign w (glob s)) (world s) (parked s))).
    pose proof (task_kept_assign w HF) as HF'.
    pose proof (known_assign w Hk) as Hk'.
    cbn in Hf, Ht.
    destruct w as [b|c|v|e|v].
    + apply (IH m d true kc ms);
        [exact Hf|exact Ht|exact Ha|exact HF'
        |destruct m; exact Hm|destruct d; exact Hs| |].
      * intros Hi. destruct (He Hi) as [_ Hc]. split; [discriminate|exact Hc].
      * destruct Hk' as [_ Hc]. split; [discriminate|exact Hc].
    + apply (IH m d kb true ms);
        [exact Hf|exact Ht|exact Ha|exact HF'
        |destruct m; exact Hm|destruct d; exact Hs| |].
      * intros Hi. destruct (He Hi) as [Hb _]. split; [exact Hb|discriminate].
      * destruct Hk' as [Hb _]. split; [exact Hb|discriminate].
    + destruct v.
      * destruct Ht as (-> & -> & -> & Ht).
        apply (IH m Sound true true ms);
          [exact Hf|exact Ht|exact Ha|exact HF'
          |destruct m; exact Hm|exact Hs| |exact Hk'].
        intros _. destruct Hk as [Hb Hc]. split; [now apply Hb|now apply Hc].
      * assert (HH : m = Hold).
        { destruct m, d; cbn in Ha; try reflexivity; try contradiction;
            discriminate Ha. }
        subst m.
        assert (Hq : equipped (assign (WInitialized false) (glob s))).
        { intros Hi. discriminate Hi. }
        destruct d; try contradiction.
        -- apply (IH Hold Sound kb kc ms);
             [exact Hf|exact Ht|discriminate|exact HF'|exact Hm|exact Hs
             |exact Hq|exact Hk'].
        -- apply (IH Hold Lowered kb kc ms);
             [exact Hf|exact Ht|discriminate|exact HF'|exact Hm
             |intros Hi; discriminate Hi|exact Hq|exact Hk'].
        -- apply (IH Hold Lowered kb kc ms);
             [exact Hf|exact Ht|discriminate|exact HF'|exact Hm
             |intros Hi; discriminate Hi|exact Hq|exact Hk'].
    + assert (HH : m = Hold).
      { destruct e; destruct Ht as [Hd _]; destruct m; cbn in Ha;
          try reflexivity; now elim Hd. }
      subst m.
      destruct e as [e|]; destruct Ht as [Hd Ht].
      * apply (IH Hold Torn kb kc ms);
          [exact Hf|exact Ht|discriminate|exact HF'|exact Hm|exact I
          |exact He|exact Hk'].
      * apply (IH Hold Sound kb kc ms);
          [exact Hf|exact Ht|discriminate|exact HF'|exact Hm|reflexivity
          |exact He|exact Hk'].
    + destruct m, v; try contradiction.
      * destruct Ht as [-> Ht]. destruct Hm as [_ Hh].
        apply (IH Hold Lowered kb kc ms);
          [exact Hf|exact Ht|discriminate|exact HF'
          |split; [reflexivity|exact Hh]|exact (proj2 Hs)|exact He|exact Hk'].
      * destruct Ht as [Hd Ht]. destruct Hm as [_ Hh].
        apply (IH Free Outside kb kc ms);
          [exact Hf|exact Ht|reflexivity|exact HF'
          |split; [reflexivity|exact Hh]| |exact He|exact Hk'].
        split; [intros Hi; discriminate Hi|].
        destruct Hd as [-> | ->]; cbn in Hs; [intros _; exact Hs|exact Hs].
  - rewrite start_sync. cbn in Hf, Ht.
    destruct (answer E op (world s)) as [r w'].
    apply (IH r m d kb kc ms);
      [apply Hf|apply Ht|exact Ha|exact HF|destruct m; exact Hm
      |exact Hs|exact He|exact Hk].
  - cbn in Hf, Ht. destruct Hf as [Hl Hfk]. destruct Ht as [Hd Htk].
    assert (Hst : stage_of (suspended m) = d).
    { destruct m; cbn in *; try (now subst d).
      destruct Hd as [-> | ->]; [now elim Ha|reflexivity]. }
    assert (Hout : stage_holds Outside (glob s)).
    { destruct Hd as [-> | ->]; [exact Hs|]. split; intros _; exact Hs. }
    assert (Hcount : holders (ms ++ [suspended m]) = flag_count (glob s)).
    { rewrite holders_app. destruct m; cbn in *.
      - lia.
      - destruct Hm as [Hfl Hh]. unfold flag_count. rewrite Hfl. lia.
      - destruct Hm as [Hfl Hh]. unfold flag_count. rewrite Hfl. lia. }
    unfold start. cbn.
    exists (ms ++ [suspended m]).
    split; [|split; [exact Hcount|split; [exact Hout|exact He]]].
    apply Forall2_app; [exact HF|]. constructor; [|constructor].
    split.
    + cbn. split; [destruct m; discriminate|]. split; [|exact Hfk].
      intros Hop. rewrite (Hl Hop). reflexivity.
    + exists kb, kc. rewrite Hst. split; [exact Htk|exact Hk].
  - cbn in Hf, Ht. destruct Ht as [Hd Htk].
    assert (Hst : stage_of (suspended m) = d).
    { destruct m; cbn in *; try (now subst d).
      destruct Hd as [-> | ->]; [now elim Ha|reflexivity]. }
    assert (Hout : stage_holds Outside (glob s)).
    { destruct Hd as [-> | ->]; [exact Hs|]. split; intros _; exact Hs. }
    assert (Hcount : holders (ms ++ [suspended m]) = flag_count (glob s)).
    { rewrite holders_app. destruct m; cbn in *.
      - lia.
      - destruct Hm as [Hfl Hh]. unfold flag_count. rewrite Hfl. lia.
      - destruct Hm as [Hfl Hh]. unfold flag_count. rewrite Hfl. lia. }
    unfold start. cbn.
    exists (ms ++ [suspended m]).
    split; [|split; [exact Hcount|split; [exact Hout|exact He]]].
    apply Forall2_app; [exact HF|]. constructor; [|constructor].
    split.
    + cbn. split; [destruct m; discriminate|exact Hf].
    + exists kb, kc. rewrite Hst. split; [exact Htk|exact Hk].
  - rewrite start_spawn. cbn in Hf, Ht.
    destruct Hf as (Hm' & Hfc & Hfk). destruct Ht as (-> & Htc & Htk).
    destruct (IHc m Outside kb kc ms s Hfc Htc Ha HF Hm Hs He Hk)
      as (ms' & HF' & Hh' & Hs' & He').
    apply (IHk Idle Outside kb kc ms');
      [exact Hfk|exact Htk|reflexivity|exact HF'|exact Hh'|exact Hs'|exact He'
      |now apply start_known].
Qed.

Lemma take_kept (g : Globals) (ms : list Mode) (pool : list Task) :
  Forall2 (task_kept g) ms pool ->
  forall (i : nat) (t : Task),
    nth_error pool i = Some t ->
    exists m,
      task_kept g m t /\
      Forall2 (task_kept g) (remove_nth i ms) (remove_nth i pool) /\
      holders ms = holders (remove_nth i ms) + holders [m].
Proof.
  induction 1 as [|m t0 ms pool Ht HF IH]; intros i t Hn.
  - destruct i; discriminate Hn.
  - destruct i as [|i]; cbn in Hn.
    + inversion Hn; subst. exists m. cbn. repeat split; auto; try apply Ht.
      destruct m; cbn; lia.
    + destruct (IH i t Hn) as (m' & Hm' & HF' & Hh).
      exists m'. cbn. repeat split; auto; try apply Hm'.
      destruct m; cbn in *; lia.
Qed.

Lemma step_kept (s s' : St E) : kept s -> step rt s s' -> kept s'.
Proof.
  intros (ms & HF & Hh & Hs & He) [a|i].
  - apply (@start_kept _ (entry rt a) Idle Outside false false ms s);
      [apply entry_follows|apply entry_tidy|reflexivity|exact HF|exact Hh
      |exact Hs|exact He|split; discriminate].
  - unfold resume.
    destruct (nth_error (parked s) i) as [t|] eqn:Hn;
      [|exists ms; split; [exact HF|split; [exact Hh|split; [exact Hs|exact He]]]].
    destruct (take_kept HF i Hn) as (m & [Hm (kb & kc & Ht & Hk)] & HF' & Hh').
    assert (Hfree : m <> Free).
    { destruct t; apply Hm. }
    assert (Hmode : forall w' : World E,
               mode_holds m (remove_nth i ms)
                          (@mkSt E (glob s) w' (remove_nth i (parked s)))).
    { intros w'. unfold mode_holds. cbn [glob].
      destruct (flag_count_cases (glob s)) as [[Hfl Hc]|[Hfl Hc]];
        rewrite Hc in *; destruct m; cbn in Hh'; try (now elim Hfree);
        try lia; split; try exact Hfl; lia. }
    assert (Hstage : stage_holds (stage_of m) (glob s)).
    { destruct m; cbn; try exact Hs.
      destruct (Hmode (world s)) as [Hfl _]. exact (proj1 Hs Hfl). }
    assert (Hagree : agree m (stage_of m)).
    { destruct m; cbn; try reflexivity. discriminate. }
    destruct t as [R X op k|R k].
    + destruct (answer E op (world s)) as [r w'].
      destruct Hm as (_ & _ & Hfk).
      exact (@start_kept _ (k r) m (stage_of m) kb kc _ (@mkSt E (glob s) w' (remove_nth i (parked s))) (Hfk r) (Ht r) Hagree HF' (Hmode w') Hstage He Hk).
    + destruct Hm as (_ & Hfk).
      exact (@start_kept _ k m (stage_of m) kb kc _ (@mkSt E (glob s) (world s) (remove_nth i (parked s))) Hfk Ht Hagree HF' (Hmode (world s)) Hstage He Hk).
Qed.

Lemma reachable_kept (s : St E) : reachable rt s -> kept s.
Proof.
  induction 1 as [w|s s' _ IH Hstep].
  - exists []. split; [constructor|]. split; [reflexivity|].
    split; [split; discriminate|]. intros Hi. discriminate Hi.
  - exact (step_kept IH Hstep).
Qed.

Lemma turns_reachable (ts : list Turn) :
  forall s : St E, reachable rt s -> reachable rt (turns rt ts s).
Proof.
  induction ts as [|[a|i] ts IH]; intros s Hr; cbn; [exact Hr| |];
    apply IH; eapply reach_step; try exact Hr; constructor.
Qed.

End Kept.

(* ------------------------------------------------------------------ *)
(** ** The session between two turns of the event loop *)

Section Session.

Variable rt : Runtime.
Variable E : Engine.

Lemma scrape_strategies_parked (page : Page) (u : string) (wal t : Z)
    (sel : option string) (s : St E) :
  parked (final (run (scrape_strategies page u wal t sel) s)) = parked s.
Proof. unfold scrape_strategies, scrapePage. exec; reflexivity. Qed.

Lemma scrape_answer_parked (page : Page) (result : ScrapeResult) (s : St E) :
  parked (final (run (scrape_answer rt page result) s)) = parked s.
Proof. unfold scrape_answer. exec; reflexivity. Qed.

(** On a session that is up the handler goes straight to a page of the
    context at hand. *)
Lemma scrape_open_ready (body : UrlModel) (s : St E) (b : Browser) (c : Context) :
  browser (glob s) = Some b -> context (glob s) = Some c ->
  browserInitialized (glob s) = true ->
  let o := run (scrape_open rt body) s in
  (exists r rest, events o = Called (NewPage c) r :: rest) /\
  launch_count (events o) = 0 /\
  glob (final o) = glob s /\
  parked (final o) = parked s.
Proof.
  destruct s as [[gb gc gi ge gf] w pk]. cbn [glob browser context browserInitialized].
  intros -> -> ->. unfold scrape_open, scrape_session, the_context.
  exec; repeat split; eauto.
Qed.

(** X16.  The health variables are coherent in every state the service
    reaches.  While an initialization is in flight no error is recorded.
    A session marked ready has no error recorded and has both its browser
    and its context.  So a recorded error means that the session is down
    and idle, and the readiness probe reports that error. *)
Theorem session_coherent (s : St E) :
  reachable rt s ->
  (initializationInProgress (glob s) = true -> browserInitError (glob s) = None) /\
  (browserInitialized (glob s) = true ->
   browserInitError (glob s) = None /\
   browser (glob s) <> None /\ context (glob s) <> None) /\
  (forall e, browserInitError (glob s) = Some e -> health (glob s) = Failed e).
Proof.
  intros Hr. destruct (reachable_kept Hr) as (ms & _ & _ & [Hfl Hin] & He).
  split; [exact Hfl|]. split.
  - intros Hi. split; [exact (Hin Hi)|exact (He Hi)].
  - intros e Herr. unfold health.
    destruct (browserInitialized (glob s)) eqn:Hi.
    + rewrite (Hin eq_refl) in Herr. discriminate Herr.
    + now rewrite Herr.
Qed.

(** X17.  A scrape request that arrives while the first initialization is
    still in flight is refused: it does not wait for the browser, it is
    answered 500 with the details "Unknown error" although nothing has
    failed, and it makes no call and changes nothing. *)
Theorem scrape_during_initialization (body : UrlModel) (u : string) (s : St E) :
  reachable rt s ->
  url body = Some u -> JS.truthy u = true -> isValidUrl rt u = true ->
  initializationInProgress (glob s) = true ->
  browserInitialized (glob s) = false ->
  run (scrape rt body) s = (inl (initFailed "Unknown error"), s, []).
Proof.
  intros Hr Hu Ht Hv Hfl Hi.
  destruct (reachable_kept Hr) as (ms & _ & _ & [Herr _] & _).
  specialize (Herr Hfl).
  rewrite (scrape_run rt body s Hu Ht Hv).
  destruct s as [[gb gc gi ge gf] w pk].
  cbn [glob initializationInProgress browserInitialized browserInitError]
    in Hfl, Hi, Herr.
  subst gf gi ge.
  unfold scrape_open, scrape_session, initializeBrowser.
  destruct gb, gc; reflexivity.
Qed.

(** X18.  A scrape request on a session that is ready uses the session as
    it is: it starts no initialization and launches nothing, the first
    call it makes is [newPage] on the context of the session, and it
    leaves the module-level variables and the parked calls as they
    were. *)
Theorem scrape_when_ready (body : UrlModel) (u : string) (s : St E) :
  reachable rt s ->
  url body = Some u -> JS.truthy u = true -> isValidUrl rt u = true ->
  browserInitialized (glob s) = true ->
  let x := run (scrape rt body) s in
  exists c,
    context (glob s) = Some c /\
    (exists r rest, events x = Called (NewPage c) r :: rest) /\
    launch_count (events x) = 0 /\
    glob (final x) = glob s /\
    parked (final x) = parked s.
Proof.
  intros Hr Hu Ht Hv Hi.
  destruct (reachable_kept Hr) as (ms & _ & _ & _ & He).
  destruct (He Hi) as [Hb Hc].
  destruct (browser (glob s)) as [b|] eqn:Eb; [clear Hb|now elim Hb].
  destruct (context (glob s)) as [c|] eqn:Ec; [clear Hc|now elim Hc].
  destruct (scrape_open_ready body s Eb Ec Hi) as ((r & rest & Hev) & Hl & Hg & Hp).
  cbv zeta. rewrite (scrape_run rt body s Hu Ht Hv). cbv zeta.
  exists c. split; [reflexivity|].
  destruct (outcome (run (scrape_open rt body) s)) as [[response|page]|e];
    cbn [outcome final events fst snd];
    try (split; [exists r, rest; exact Hev|]; split; [exact Hl|];
         split; [exact Hg|exact Hp]).
  set (o := run (scrape_open rt body) s) in *.
  pose proof (scrape_strategies_launches page u (wait_of body) (timeout_of body)
                (check_selector body) (final o)) as Hl1.
  pose proof (scrape_strategies_glob page u (wait_of body) (timeout_of body)
                (check_selector body) (final o)) as Hg1.
  pose proof (scrape_strategies_parked page u (wait_of body) (timeout_of body)
                (check_selector body) (final o)) as Hp1.
  set (f := run (scrape_strategies page u (wait_of body) (timeout_of body)
                                   (check_selector body)) (final o)) in *.
  assert (Hfront : exists rest', events o ++ events f = Called (NewPage c) r :: rest').
  { rewrite Hev. cbn. eauto. }
  assert (Hcount : launch_count (events o ++ events f) = 0).
  { rewrite launch_count_app. lia. }
  destruct (outcome f) as [[response|result]|e];
    cbn [outcome final events fst snd];
    try (split; [destruct Hfront as [rest' ->]; eauto|]; split; [exact Hcount|];
         split; [congruence|congruence]).
  pose proof (scrape_answer_launches rt page result (final f)) as Hl2.
  pose proof (scrape_answer_glob rt page result (final f)) as Hg2.
  pose proof (scrape_answer_parked page result (final f)) as Hp2.
  split; [|split; [|split; congruence]].
  - rewrite Hev. cbn. eauto.
  - rewrite !launch_count_app. lia.
Qed.

(** X19.  While an initialization is in flight the readiness probe never
    reports an error and never starts a second initialization: it says
    that the session is ready or that initialization is in progress, and
    leaves everything as it is. *)
Theorem readiness_during_initialization (s : St E) :
  reachable rt s ->
  initializationInProgress (glob s) = true ->
  run (health_readiness rt) s =
  (inl (if browserInitialized (glob s)
        then mkHttp 200 [("status", JStr "ready")]
        else mkHttp 503 [("status", JStr "not ready");
                         ("message", JStr "Browser initialization in progress")]),
   s, []).
Proof.
  intros Hr Hfl.
  destruct (reachable_kept Hr) as (ms & _ & _ & [Herr _] & _).
  specialize (Herr Hfl).
  unfold health_readiness. cbn [run].
  rewrite Herr, Hfl. destruct (browserInitialized (glob s)); reflexivity.
Qed.

End Session.

(** The state after [listen] and the state after the initialization are
    reached from boot. *)
Lemma warming_reachable : reachable sample_runtime warming.
Proof.
  exact (@turns_reachable sample_runtime (site_engine plain_site) [Start Listen]
           (boot plain_site globals0)
           (@reach_boot sample_runtime (site_engine plain_site) 0)).
Qed.

Lemma serving_reachable : reachable sample_runtime serving.
Proof.
  exact (@turns_reachable sample_runtime (site_engine plain_site)
           [Start Listen; Settle 0; Settle 0; Settle 0; Settle 0; Settle 0]
           (boot plain_site globals0)
           (@reach_boot sample_runtime (site_engine plain_site) 0)).
Qed.

Lemma session_coherent_witness :
  browserInitialized (glob serving) = true /\
  browserInitError (glob serving) = None /\
  browser (glob serving) <> None /\ context (glob serving) <> None.
Proof.
  assert (Hi : browserInitialized (glob serving) = true) by (vm_compute; reflexivity).
  split; [exact Hi|].
  exact (proj1 (proj2 (@session_coherent sample_runtime (site_engine plain_site)
                         serving serving_reachable)) Hi).
Defined.

Lemma scrape_during_initialization_witness :
  run (scrape sample_runtime (request "https://example.com/")) warming
  = (inl (initFailed "Unknown error"), warming, []).
Proof.
  apply (@scrape_during_initialization sample_runtime (site_engine plain_site)
           (request "https://example.com/") "https://example.com/" warming);
    [exact warming_reachable|reflexivity|vm_compute; reflexivity
    |vm_compute; reflexivity|vm_compute; reflexivity|vm_compute; reflexivity].
Defined.

Lemma scrape_when_ready_witness :
  launch_count (events (run (scrape sample_runtime (request "https://example.com/"))
                            serving)) = 0.
Proof.
  assert (Ht : JS.truthy "https://example.com/" = true) by (vm_compute; reflexivity).
  assert (Hv : isValidUrl sample_runtime "https://example.com/" = true)
    by (vm_compute; reflexivity).
  assert (Hi : browserInitialized (glob serving) = true) by (vm_compute; reflexivity).
  destruct (@scrape_when_ready sample_runtime (site_engine plain_site)
              (request "https://example.com/") "https://example.com/" serving
              serving_reachable eq_refl Ht Hv Hi) as (c & _ & _ & H & _).
  exact H.
Defined.

Lemma readiness_during_initialization_witness :
  outcome (run (health_readiness sample_runtime) warming)
  = inl (mkHttp 503 [("status", JStr "not ready");
                     ("message", JStr "Browser initialization in progress")]).
Proof.
  assert (Hf : initializationInProgress (glob warming) = true)
    by (vm_compute; reflexivity).
  rewrite (@readiness_during_initialization sample_runtime (site_engine plain_site)
             warming warming_reachable Hf).
  reflexivity.
Defined.
